(** * City views: a shallow embedding of [api/modules/city/views.py]

    The module is a set of Django REST handlers over a relational store.
    The handlers are embedded as computations in a state-and-exception
    monad over the store.  What the handlers import from elsewhere
    (serializers, the text utilities, the outbound HTTP client, the
    store's own failure modes) is taken as a parameter of the development. *)

From Stdlib Require Import ZArith List String Ascii Bool Lia Permutation Sorted.
From stdpp Require Import base option list gmap strings.

Set Warnings "-register-all".
Set Default Proof Using "Type".

Local Open Scope string_scope.
Local Open Scope Z_scope.

(** ** Python values and exceptions *)

(** The model classes of [api.models] that the views import. *)
Inductive Model := CityM | CityImageM | CityFactM | CityVisitLogM | TripM | UserM.

Definition model_name (m : Model) : string :=
  match m with
  | CityM => "City"
  | CityImageM => "CityImage"
  | CityFactM => "CityFact"
  | CityVisitLogM => "CityVisitLog"
  | TripM => "Trip"
  | UserM => "User"
  end.

(** An exception that is not one of the ORM's per-model classes: its class
    name and its text ([str(e)]). *)
Record PyError := { err_class : string; err_text : string }.

(** The exceptions a handler can meet.  [DoesNotExist m] is the class
    [m.DoesNotExist]; every constructor is a subclass of [Exception]. *)
Inductive exn :=
| DoesNotExist (m : Model)
| MultipleObjectsReturned (m : Model)
| Exception (e : PyError).

(** [str(e)]. *)
Definition str (e : exn) : string :=
  match e with
  | DoesNotExist m => model_name m +:+ " matching query does not exist."
  | MultipleObjectsReturned m => "get() returned more than one " +:+ model_name m
  | Exception e => err_text e
  end.

(** JSON-like Python values: what [api_response.json()] yields, and what a
    [Response] carries.  A dict keeps its keys in insertion order. *)
Inductive json :=
| JNull
| JBool (b : bool)
| JInt (z : Z)
| JStr (s : string)
| JList (l : list json)
| JDict (d : list (string * json)).
(* Numbers are integers here: no view looks into a number. *)

Fixpoint assoc {A : Type} (k : string) (d : list (string * A)) : option A :=
  match d with
  | [] => None
  | (k', v) :: d' => if String.eqb k k' then Some v else assoc k d'
  end.

(** ** Results and the handler monad *)

Inductive Res (A : Type) :=
| Ok (a : A)
| Raise (e : exn).
Arguments Ok {A} a.
Arguments Raise {A} e.

(** ** The data model *)

Record City := { city_pk : Z; city_name : string; nickname : option string }.
Record CityImage := { image_pk : Z; image_city : Z; image_ref : string }.
Record CityFact := { fact_pk : Z; fact_city : Z; fact_text : string }.
Record CityVisitLog := { log_city : Z; log_user : Z }.
Record Trip := { trip_pk : Z; trip_city : Z; trip_users : list Z }.
Record User := { user_pk : Z }.

(** A [City] instance in memory: the row, and the attributes the views or
    the query attach to it ([has_visited], [visit_count]). *)
Record CityObj := {
  row : City;
  has_visited : option bool;
  visit_count : option nat
}.

Definition instance (c : City) : CityObj :=
  {| row := c; has_visited := None; visit_count := None |}.

Definition set_has_visited (b : bool) (o : CityObj) : CityObj :=
  {| row := row o; has_visited := Some b; visit_count := visit_count o |}.

Definition set_nickname (n : string) (c : City) : City :=
  {| city_pk := city_pk c; city_name := city_name c; nickname := Some n |}.

(** The relational store: one table per model, rows in store order. *)
Record Store := {
  cities : list City;
  city_images : list CityImage;
  city_facts : list CityFact;
  city_visit_logs : list CityVisitLog;
  trips : list Trip;
  users : list User
}.

Definition with_city_visit_logs (l : list CityVisitLog) (s : Store) : Store :=
  {| cities := cities s; city_images := city_images s; city_facts := city_facts s;
     city_visit_logs := l; trips := trips s; users := users s |}.

Definition with_cities (l : list City) (s : Store) : Store :=
  {| cities := l; city_images := city_images s; city_facts := city_facts s;
     city_visit_logs := city_visit_logs s; trips := trips s; users := users s |}.

(** Primary keys of cities are unique (the store enforces it). *)
Definition pk_unique (s : Store) : Prop := List.NoDup (map city_pk (cities s)).

(** Every trip's city is a row of the city table (the foreign key). *)
Definition trip_city_fk (s : Store) : Prop :=
  ∀ t, In t (trips s) → ∃ c, In c (cities s) ∧ city_pk c = trip_city t.

(** A request: the authenticated user and the POST form. *)
Record Request := { user : User; POST : gmap string string }.

Record Response := { data : option json; status : Z }.

Definition HTTP_200_OK : Z := 200.
Definition HTTP_201_CREATED : Z := 201.
Definition HTTP_400_BAD_REQUEST : Z := 400.
Definition HTTP_404_NOT_FOUND : Z := 404.
Definition HTTP_503_SERVICE_UNAVAILABLE : Z := 503.

(** A handler step: it reads and may write the store, and returns or raises.
    A write made before an exception stays made. *)
Definition M (A : Type) : Type := Store → Res A * Store.

Definition ret {A : Type} (a : A) : M A := λ s, (Ok a, s).

Definition raise {A : Type} (e : exn) : M A := λ s, (Raise e, s).

Definition bind {A B : Type} (m : M A) (k : A → M B) : M B :=
  λ s, match m s with
       | (Ok a, s') => k a s'
       | (Raise e, s') => (Raise e, s')
       end.

Notation "'let*' x ':=' m 'in' k" := (bind m (λ x, k))
  (at level 10, x name, m at level 100, k at level 200).

(** [try: body except ...]: [handler e] is [None] when no clause matches
    [e], and the exception goes on. *)
Definition try_except {A : Type} (body : M A) (handler : exn → option (M A)) : M A :=
  λ s, match body s with
       | (Ok a, s') => (Ok a, s')
       | (Raise e, s') =>
           match handler e with
           | Some h => h s'
           | None => (Raise e, s')
           end
       end.

(** Evaluating a query: the store is read, not written. *)
Definition query {A : Type} (q : Store → A) : M A := λ s, (Ok (q s), s).

(** A [for] loop with an accumulator. *)
Fixpoint for_each {A B : Type} (l : list A) (body : B → A → M B) (acc : B) : M B :=
  match l with
  | [] => ret acc
  | x :: l' => let* acc' := body acc x in for_each l' body acc'
  end.

(** Lifting the outcome of a call outside the store. *)
Definition lift {A : Type} (r : PyError + A) : M A :=
  match r with
  | inl e => raise (Exception e)
  | inr a => ret a
  end.

Definition response (r : Res Response * Store) : Res Response := fst r.
Definition final_store (r : Res Response * Store) : Store := snd r.

(** ** The ORM operations the views call *)

(** [Model.objects.get(pk=...)]: the rows with that key; none is
    [DoesNotExist], more than one is [MultipleObjectsReturned]. *)
Definition objects_get {A : Type} (m : Model) (matching : list A) : M A :=
  match matching with
  | [] => raise (DoesNotExist m)
  | [x] => ret x
  | _ :: _ :: _ => raise (MultipleObjectsReturned m)
  end.

Definition City_filter_pk (pk : Z) (s : Store) : list City :=
  List.filter (λ c, city_pk c =? pk) (cities s).

Definition City_objects_get (pk : Z) : M City :=
  let* matching := query (City_filter_pk pk) in
  objects_get CityM matching.

(** [Trip.objects.filter(city=city, users=user)]. *)
Definition Trip_filter_city_users (city : Z) (u : Z) (s : Store) : list Trip :=
  List.filter (λ t, (trip_city t =? city) && existsb (Z.eqb u) (trip_users t)) (trips s).

(** [Trip.objects.filter(users=user_id)]. *)
Definition Trip_filter_users (u : Z) (s : Store) : list Trip :=
  List.filter (λ t, existsb (Z.eqb u) (trip_users t)) (trips s).

(** [User.objects.filter(id=user_id)]. *)
Definition User_filter_id (u : Z) (s : Store) : list User :=
  List.filter (λ x, user_pk x =? u) (users s).

(** [queryset.exists()]. *)
Definition exists_ {A : Type} (l : list A) : bool :=
  match l with
  | [] => false
  | _ :: _ => true
  end.

(** A query set is lazy: [filter] builds it without reading the store, and
    it is run when it is iterated, in these views by [serializer.data].
    Running it hands the key to the store as a signed 64-bit integer; a
    key outside that range is an [OverflowError]. *)
Record QuerySet (A : Type) := { qs_key : Z; qs_rows : Store → list A }.
Arguments qs_key {A} q.
Arguments qs_rows {A} q s.

Definition in_int64 (z : Z) : bool := (- 2 ^ 63 <=? z) && (z <=? 2 ^ 63 - 1).

Definition OverflowError : exn :=
  Exception {| err_class := "OverflowError";
               err_text := "Python int too large to convert to SQLite INTEGER" |}.

Definition evaluate {A : Type} (q : QuerySet A) : M (list A) :=
  λ s, if in_int64 (qs_key q) then (Ok (qs_rows q s), s) else (Raise OverflowError, s).

(** [CityImage.objects.filter(city=city_id)] and the same for facts.  A
    filter builds a query set; it has no row to miss and raises nothing. *)
Definition CityImage_objects_filter (city_id : Z) : M (QuerySet CityImage) :=
  ret {| qs_key := city_id;
         qs_rows := λ s, List.filter (λ i, image_city i =? city_id) (city_images s) |}.

Definition CityFact_objects_filter (city_id : Z) : M (QuerySet CityFact) :=
  ret {| qs_key := city_id;
         qs_rows := λ s, List.filter (λ f, fact_city f =? city_id) (city_facts s) |}.

(** [trip.city]: following the foreign key fetches the city row. *)
Definition Trip_city (t : Trip) : M City := City_objects_get (trip_city t).

(** [Count('logs')]: the visit-log rows that reference the city. *)
Definition count_logs (s : Store) (c : City) : nat :=
  length (List.filter (λ l, log_city l =? city_pk c) (city_visit_logs s)).

(** [City.objects.annotate(visit_count=Count('logs'))]. *)
Definition annotate_visit_count (s : Store) : list (City * nat) :=
  map (λ c, (c, count_logs s c)) (cities s).

(** [order_by('-visit_count')]: descending, rows of equal count keep the
    store's order. *)
Fixpoint insert_desc (x : City * nat) (l : list (City * nat)) : list (City * nat) :=
  match l with
  | [] => [x]
  | y :: l' => if (x.2 <? y.2)%nat then y :: insert_desc x l' else x :: y :: l'
  end.

Definition order_by_visit_count_desc (l : list (City * nat)) : list (City * nat) :=
  foldr insert_desc [] l.

Definition annotated (p : City * nat) : CityObj :=
  {| row := p.1; has_visited := None; visit_count := Some p.2 |}.

(** [city_name__istartswith]: prefix test that ignores the case of ASCII
    letters. *)
Definition lower (c : ascii) : ascii :=
  let n := nat_of_ascii c in
  if ((65 <=? n) && (n <=? 90))%nat then ascii_of_nat (n + 32) else c.

Fixpoint istartswith (prefix s : string) : bool :=
  match prefix, s with
  | EmptyString, _ => true
  | String a p, String b t => Ascii.eqb (lower a) (lower b) && istartswith p t
  | String _ _, EmptyString => false
  end.

(** A Python [set] of [City] instances.  Model instances hash and compare
    by primary key, so [add] keeps the element already there. *)
Definition set_add (c : City) (s : list City) : list City :=
  if existsb (λ x, city_pk x =? city_pk c) s then s else s ++ [c].

(** Truthiness of the values the views test with [not]. *)
Definition truthy_str (v : option string) : option string :=
  match v with
  | Some s => if String.eqb s "" then None else Some s
  | None => None
  end.

Definition truthy_int (v : option Z) : option Z :=
  match v with
  | Some z => if z =? 0 then None else Some z
  | None => None
  end.

(** Subscripting and [.keys()] on a value decoded from JSON. *)
Definition KeyError (k : string) : exn :=
  Exception {| err_class := "KeyError"; err_text := "'" +:+ k +:+ "'" |}.
Definition TypeError : exn :=
  Exception {| err_class := "TypeError"; err_text := "object is not subscriptable with a str" |}.
Definition AttributeError : exn :=
  Exception {| err_class := "AttributeError"; err_text := "object has no attribute 'keys'" |}.
Definition IndexError : exn :=
  Exception {| err_class := "IndexError"; err_text := "list index out of range" |}.

Definition getitem (v : json) (k : string) : M json :=
  match v with
  | JDict d => match assoc k d with
               | Some x => ret x
               | None => raise (KeyError k)
               end
  | _ => raise TypeError
  end.

Definition keys (v : json) : M (list string) :=
  match v with
  | JDict d => ret (map fst d)
  | _ => raise AttributeError
  end.

Definition first {A : Type} (l : list A) : M A :=
  match l with
  | x :: _ => ret x
  | [] => raise IndexError
  end.

(** ** What the properties are stated with *)

(** "The name starts with the prefix, compared without regard to case":
    the folded name is the folded prefix followed by something. *)
Definition starts_with_ci (prefix name : string) : Prop :=
  ∃ rest, map lower (list_ascii_of_string name)
          = (map lower (list_ascii_of_string prefix) ++ rest)%list.

(** "Ordered by visit count, descending": what comes later counts no more. *)
Definition by_count_desc (a b : City * nat) : Prop := (b.2 ≤ a.2)%nat.

(** "The target user is the explicit parameter, or the requester's own id":
    a parameter that is absent or zero stands for the requester. *)
Definition resolves_to (user_id : option Z) (request : Request) (target : Z) : Prop :=
  (user_id = Some target ∧ target ≠ 0)
  ∨ ((user_id = None ∨ user_id = Some 0) ∧ target = user_pk (user request)).

(** "The text of the first page entry": the decoded body is a dict whose
    ["query"] is a dict whose ["pages"] is a dict whose first entry is a
    dict with an ["extract"]. *)
Definition first_page_extract (data extract : json) : Prop :=
  ∃ d q k p rest,
    data = JDict d ∧ assoc "query" d = Some (JDict q)
    ∧ assoc "pages" q = Some (JDict ((k, JDict p) :: rest))
    ∧ assoc "extract" p = Some extract.

(** A computation that leaves the store as it found it, whatever it returns. *)
Definition read_only {A : Type} (m : M A) : Prop := ∀ s, (m s).2 = s.

(** Two stores that differ at most in the visit-log table. *)
Definition same_but_logs (s s' : Store) : Prop :=
  cities s' = cities s ∧ city_images s' = city_images s ∧ city_facts s' = city_facts s
  ∧ trips s' = trips s ∧ users s' = users s.

(** Two stores that differ at most in the nicknames of cities. *)
Definition same_but_nicknames (s s' : Store) : Prop :=
  Forall2 (λ c c', city_pk c' = city_pk c ∧ city_name c' = city_name c)
          (cities s) (cities s')
  ∧ city_images s' = city_images s ∧ city_facts s' = city_facts s
  ∧ city_visit_logs s' = city_visit_logs s
  ∧ trips s' = trips s ∧ users s' = users s.

(** Every visit log's city is a row of the city table (the foreign key). *)
Definition log_city_fk (s : Store) : Prop :=
  ∀ l, In l (city_visit_logs s) → ∃ c, In c (cities s) ∧ city_pk c = log_city l.

(** The form of the request names the city with key [k] and gives the
    nickname [nick], neither field empty. *)
Definition asks_nickname (to_python : string → PyError + Z) (request : Request)
           (k : Z) (nick : string) : Prop :=
  ∃ cid, POST request !! "city_id" = Some cid ∧ cid ≠ "" ∧ to_python cid = inr k
         ∧ POST request !! "nickname" = Some nick ∧ nick ≠ "".

(** The city table after the row of [c] has got the nickname [nick]. *)
Definition renamed (c : City) (nick : string) (l : list City) : list City :=
  map (λ r, if city_pk r =? city_pk c then set_nickname nick c else r) l.

(** What a listing shows of a city besides its nickname. *)
Definition shown (p : City * nat) : Z * string * nat := (city_pk p.1, city_name p.1, p.2).

(** ** A small store and a client, for running the views *)

Definition paris : City := {| city_pk := 1; city_name := "Paris"; nickname := None |}.
Definition parma : City := {| city_pk := 2; city_name := "parma"; nickname := None |}.
Definition lyon : City := {| city_pk := 3; city_name := "Lyon"; nickname := Some "Lugdunum" |}.

Definition sample_store : Store :=
  {| cities := [paris; parma; lyon];
     city_images := [ {| image_pk := 1; image_city := 1; image_ref := "eiffel.png" |} ];
     city_facts := [ {| fact_pk := 1; fact_city := 3; fact_text := "Two rivers meet here." |} ];
     city_visit_logs := [ {| log_city := 3; log_user := 7 |};
                          {| log_city := 1; log_user := 8 |};
                          {| log_city := 3; log_user := 8 |} ];
     trips := [ {| trip_pk := 1; trip_city := 1; trip_users := [7] |};
                {| trip_pk := 2; trip_city := 3; trip_users := [7; 8] |};
                {| trip_pk := 3; trip_city := 1; trip_users := [7] |} ];
     users := [ {| user_pk := 7 |}; {| user_pk := 8 |}; {| user_pk := 9 |} ] |}.

(** A store with two cities of one name. *)
Definition paris_texas : City := {| city_pk := 4; city_name := "Paris"; nickname := None |}.

Definition namesake_store : Store :=
  {| cities := [paris; paris_texas]; city_images := []; city_facts := [];
     city_visit_logs := []; trips := []; users := [] |}.

Definition sample_request (u : Z) (form : list (string * string)) : Request :=
  {| user := {| user_pk := u |}; POST := list_to_map form |}.

Definition opt_str (o : option string) : json :=
  match o with
  | Some s => JStr s
  | None => JNull
  end.

Definition sample_city_serializer (o : CityObj) : json :=
  JDict [("id", JInt (city_pk (row o)));
         ("city_name", JStr (city_name (row o)));
         ("nickname", opt_str (nickname (row o)));
         ("has_visited", match has_visited o with Some b => JBool b | None => JNull end)].

Definition sample_condensed_serializer (o : CityObj) : json :=
  JDict [("id", JInt (city_pk (row o))); ("city_name", JStr (city_name (row o)))].

Definition sample_image_serializer (i : CityImage) : json := JStr (image_ref i).
Definition sample_fact_serializer (f : CityFact) : json := JStr (fact_text f).

Definition sample_error (text : string) : PyError :=
  {| err_class := "Error"; err_text := text |}.

(** A store that accepts every write, one that rejects every write, and one
    whose insert raises an exception of an ORM class. *)
Definition accept {A E : Type} (s : Store) (x : A) : option E := None.
Definition raising (e : exn) (s : Store) (l : CityVisitLog) : option exn := Some e.
Definition reject {A : Type} (s : Store) (x : A) : option PyError :=
  Some (sample_error "database is locked").

(** Decimal digits only. *)
Definition digit (c : ascii) : option Z :=
  let n := nat_of_ascii c in
  if ((48 <=? n) && (n <=? 57))%nat then Some (Z.of_nat n - 48) else None.

Fixpoint digits (acc : Z) (s : string) : option Z :=
  match s with
  | EmptyString => Some acc
  | String c t => match digit c with
                  | Some d => digits (10 * acc + d) t
                  | None => None
                  end
  end.

Definition sample_to_python (s : string) : PyError + Z :=
  match s with
  | EmptyString => inl (sample_error "invalid literal for int()")
  | _ => match digits 0 s with
         | Some z => inr z
         | None => inl (sample_error "invalid literal for int()")
         end
  end.

(** An encyclopedia that knows Lyon only, and utilities that pass text on. *)
Definition sample_requests_get (url : string) : PyError + string :=
  if String.eqb url ("https://en.wikipedia.org/w/api.php" +:+
                     "?action=query&prop=extracts&explaintext&titles=Lyon&format=json")
  then inr "lyon-page" else inl (sample_error "connection refused").

Definition sample_response_json (body : string) : PyError + json :=
  inr (JDict [("batchcomplete", JStr "");
              ("query", JDict [("pages", JDict [("8638", JDict [("pageid", JInt 8638);
                                                               ("extract", JStr body)])])])]).

Definition sample_clean (extract : json) : PyError + json := inr extract.
Definition sample_as_dict (extract : json) : PyError + json := inr (JDict [("summary", extract)]).

(** ** The views *)

Section Views.

(** The serializers of [api.modules.city.serializers]: each maps one
    instance to its projection; [many=True] maps it over the query set. *)
Variable CitySerializer : CityObj → json.
Variable CityCondensedSerializer : CityObj → json.
Variable CityImageSerializer : CityImage → json.
Variable CityFactSerializer : CityFact → json.

(** The text utilities of [api.modules.city.utils]; either may raise. *)
Variable clean_wiki_extract : json → PyError + json.
Variable extract_as_dict : json → PyError + json.

(** The outbound call ([requests.get], answered from the network or from
    the installed cache) and the decoding of its body ([.json()]). *)
Variable requests_get : string → PyError + string.
Variable response_json : string → PyError + json.

(** What a write meets: [Some e] when it raises [e].  The insert of a
    visit log may raise anything; an update of a city that fails raises an
    error of the store, none of the ORM's per-model classes. *)
Variable insert_error : Store → CityVisitLog → option exn.
Variable update_error : Store → City → option PyError.

(** The conversion of a form value to a primary key ([int]); a value that
    is not a number is a [ValueError]. *)
Variable to_python : string → PyError + Z.

(** The order in which a Python [set] built by the given insertions is
    iterated: some arrangement of its elements. *)
Variable set_iter_order : list City → list City.
Hypothesis set_iter_order_perm : ∀ l, Permutation (set_iter_order l) l.

(** The payload of [DOWNSTREAM_ERROR_RESPONSE]. *)
Variable downstream_error_data : json.

(** Modelled from the spec: [api.commonresponses.DOWNSTREAM_ERROR_RESPONSE]
    is not among the sources; the spec gives it as one generic response
    of status 503 (downstream enrichment failure), and the docstring of
    [get_city_information] says "503 if wiki api fails". *)
Definition DOWNSTREAM_ERROR_RESPONSE : Response :=
  {| data := Some downstream_error_data; status := HTTP_503_SERVICE_UNAVAILABLE |}.

(** [CityVisitLog(...).save()]: an insert. *)
Definition CityVisitLog_save (l : CityVisitLog) : M unit :=
  λ s, match insert_error s l with
       | Some e => (Raise e, s)
       | None => (Ok tt, with_city_visit_logs (city_visit_logs s ++ [l]) s)
       end.

(** [city.save()]: the row with the instance's key is replaced (and
    inserted when there is none). *)
Definition save_row (c : City) (l : list City) : list City :=
  if existsb (λ r, city_pk r =? city_pk c) l
  then map (λ r, if city_pk r =? city_pk c then c else r) l
  else l ++ [c].

Definition City_save (c : City) : M unit :=
  λ s, match update_error s c with
       | Some e => (Raise (Exception e), s)
       | None => (Ok tt, with_cities (save_row c (cities s)) s)
       end.

Definition get_all_cities (request : Request) (no_of_cities : option nat) : M Response :=
  let no_of_cities := default 8%nat no_of_cities in
  let* cities :=
    query (λ s, firstn no_of_cities (order_by_visit_count_desc (annotate_visit_count s))) in
  let serializer_data := JList (map CityCondensedSerializer (map annotated cities)) in
  ret {| data := Some serializer_data; status := HTTP_200_OK |}.

Definition get_city (request : Request) (city_id : Z) : M Response :=
  let* r :=
    try_except
      (let* city := City_objects_get city_id in
       let* has_visited :=
         query (λ s, exists_ (Trip_filter_city_users (city_pk city)
                                (user_pk (user request)) s)) in
       ret (inr (set_has_visited has_visited (instance city))))
      (λ e, match e with
            | DoesNotExist CityM =>
                Some (ret (inl {| data := None; status := HTTP_404_NOT_FOUND |}))
            | _ => None
            end) in
  match r with
  | inl early => ret early
  | inr city =>
      (* Add city visit log *)
      let* _ :=
        try_except
          (let city_visit_log :=
             {| log_city := city_pk (row city); log_user := user_pk (user request) |} in
           CityVisitLog_save city_visit_log)
          (λ e, Some (ret tt)) in
      ret {| data := Some (CitySerializer city); status := HTTP_200_OK |}
  end.

Definition get_city_by_name (request : Request) (city_prefix : string) : M Response :=
  let* cities :=
    query (λ s, firstn 5 (List.filter (λ c, istartswith city_prefix (city_name c))
                            (cities s))) in
  let serializer_data := JList (map CityCondensedSerializer (map instance cities)) in
  ret {| data := Some serializer_data; status := HTTP_200_OK |}.

Definition get_all_city_images (request : Request) (city_id : Z) : M Response :=
  let* r :=
    try_except
      (let* city_images := CityImage_objects_filter city_id in ret (inr city_images))
      (λ e, match e with
            | DoesNotExist CityImageM =>
                Some (ret (inl {| data := None; status := HTTP_404_NOT_FOUND |}))
            | _ => None
            end) in
  match r with
  | inl early => ret early
  | inr city_images =>
      let* serializer_data := evaluate city_images in
      ret {| data := Some (JList (map CityImageSerializer serializer_data));
             status := HTTP_200_OK |}
  end.

Definition get_all_city_facts (request : Request) (city_id : Z) : M Response :=
  let* r :=
    try_except
      (let* city_facts := CityFact_objects_filter city_id in ret (inr city_facts))
      (λ e, match e with
            | DoesNotExist CityFactM =>
                Some (ret (inl {| data := None; status := HTTP_404_NOT_FOUND |}))
            | _ => None
            end) in
  match r with
  | inl early => ret early
  | inr city_facts =>
      let* serializer_data := evaluate city_facts in
      ret {| data := Some (JList (map CityFactSerializer serializer_data));
             status := HTTP_200_OK |}
  end.

Definition wiki_api_url (name : string) : string :=
  "https://en.wikipedia.org/w/api.php" +:+
  "?action=query&prop=extracts&explaintext&titles=" +:+
  name +:+
  "&format=json".

Definition get_city_information (request : Request) (city_id : Z) : M Response :=
  let* r :=
    try_except
      (let* city := City_objects_get city_id in
       let* api_response := lift (requests_get (wiki_api_url (city_name city))) in
       let* data := lift (response_json api_response) in
       (* fetching unique number associated with every city as a key in response *)
       let* q := getitem data "query" in
       let* pages := getitem q "pages" in
       let* ks := keys pages in
       let* city_wiki_number := first ks in
       let* q := getitem data "query" in
       let* pages := getitem q "pages" in
       let* page := getitem pages city_wiki_number in
       let* extract := getitem page "extract" in
       let* extract := lift (clean_wiki_extract extract) in
       let* city_detail := lift (extract_as_dict extract) in
       ret (inr city_detail))
      (λ e, match e with
            | DoesNotExist CityM =>
                let error_message := JStr "City does not exist" in
                Some (ret (inl {| data := Some error_message;
                                  status := HTTP_404_NOT_FOUND |}))
            | _ => Some (ret (inl DOWNSTREAM_ERROR_RESPONSE))
            end) in
  match r with
  | inl early => ret early
  | inr city_detail => ret {| data := Some city_detail; status := HTTP_200_OK |}
  end.

Definition get_visited_city (request : Request) (user_id : option Z) : M Response :=
  (* if user with user_id does not exist *)
  let user_id :=
    match truthy_int user_id with
    | Some user_id => user_id
    | None => user_pk (user request)
    end in
  let* found := query (λ s, exists_ (User_filter_id user_id s)) in
  if negb found then
    let error_message := JStr "User does not exists." in
    ret {| data := Some error_message; status := HTTP_404_NOT_FOUND |}
  else
    let* trips := query (Trip_filter_users user_id) in
    let* cities :=
      for_each trips
        (λ cities trip, let* city := Trip_city trip in ret (set_add city cities)) [] in
    let serializer_data :=
      JList (map CityCondensedSerializer (map instance (set_iter_order cities))) in
    ret {| data := Some serializer_data; status := HTTP_200_OK |}.

Definition add_city_nickname (request : Request) : M Response :=
  let city_id := POST request !! "city_id" in
  let nickname := POST request !! "nickname" in
  match truthy_str city_id, truthy_str nickname with
  | Some city_id, Some nickname =>
      let* r :=
        try_except
          (let* pk := lift (to_python city_id) in
           let* city := City_objects_get pk in
           let city := set_nickname nickname city in
           let* _ := City_save city in
           ret (inr tt))
          (λ e, match e with
                | DoesNotExist CityM =>
                    let error_message := JList [JStr "City does not exist"] in
                    Some (ret (inl {| data := Some error_message;
                                      status := HTTP_404_NOT_FOUND |}))
                | _ =>
                    let error_message := JStr (str e) in
                    Some (ret (inl {| data := Some error_message;
                                      status := HTTP_400_BAD_REQUEST |}))
                end) in
      match r with
      | inl early => ret early
      | inr _ =>
          let success_message := JStr "Successfully added nickname." in
          ret {| data := Some success_message; status := HTTP_201_CREATED |}
      end
  | _, _ =>
      (* incorrect request received *)
      let error_message := JStr "Missing parameters in request. Send city_id, nickname" in
      ret {| data := Some error_message; status := HTTP_400_BAD_REQUEST |}
  end.


(** ** Running the monad *)

Lemma run_bind_Ok {A B : Type} (m : M A) (k : A → M B) (s s' : Store) (a : A) :
  m s = (Ok a, s') → bind m k s = k a s'.
Proof. intros E. unfold bind. now rewrite E. Qed.

Lemma run_bind_Raise {A B : Type} (m : M A) (k : A → M B) (s s' : Store) (e : exn) :
  m s = (Raise e, s') → bind m k s = (Raise e, s').
Proof. intros E. unfold bind. now rewrite E. Qed.

Lemma run_try_Ok {A : Type} (m : M A) (h : exn → option (M A)) (s s' : Store) (a : A) :
  m s = (Ok a, s') → try_except m h s = (Ok a, s').
Proof. intros E. unfold try_except. now rewrite E. Qed.

Lemma run_try_Raise {A : Type} (m : M A) (h : exn → option (M A)) (s s' : Store)
      (e : exn) (handler : M A) :
  m s = (Raise e, s') → h e = Some handler → try_except m h s = handler s'.
Proof. intros E Hh. unfold try_except. now rewrite E, Hh. Qed.

(** ** Looking a city up *)

Lemma filter_pk_missing (k : Z) (l : list City) :
  (∀ c, In c l → city_pk c ≠ k) → List.filter (λ c, city_pk c =? k) l = [].
Proof.
  induction l as [|x l IH]; intros Hno; simpl; [reflexivity|].
  destruct (Z.eqb_spec (city_pk x) k) as [E|_].
  - exfalso. apply (Hno x); [now left | exact E].
  - apply IH. intros c Hc. apply Hno. now right.
Qed.

Lemma filter_pk_found (c : City) (l : list City) :
  List.NoDup (map city_pk l) → In c l →
  List.filter (λ x, city_pk x =? city_pk c) l = [c].
Proof.
  induction l as [|x l IH]; intros Hnd Hin; [destruct Hin|].
  simpl in Hnd. apply NoDup_cons_iff in Hnd as [Hx Hnd]. simpl.
  destruct Hin as [->|Hin].
  - rewrite Z.eqb_refl. f_equal. apply filter_pk_missing.
    intros c' Hc' E. apply Hx. rewrite <- E. now apply in_map.
  - destruct (Z.eqb_spec (city_pk x) (city_pk c)) as [E|_].
    + exfalso. apply Hx. rewrite E. now apply in_map.
    + now apply IH.
Qed.

Lemma City_objects_get_missing (k : Z) (s : Store) :
  (∀ c, In c (cities s) → city_pk c ≠ k) →
  City_objects_get k s = (Raise (DoesNotExist CityM), s).
Proof.
  intros Hno. unfold City_objects_get, bind, query, City_filter_pk.
  now rewrite filter_pk_missing.
Qed.

Lemma City_objects_get_found (c : City) (s : Store) :
  pk_unique s → In c (cities s) →
  City_objects_get (city_pk c) s = (Ok c, s).
Proof.
  intros Hu Hin. unfold City_objects_get, bind, query, City_filter_pk.
  now rewrite filter_pk_found.
Qed.

(** Whatever the lookup answers, it answers with a row of the table that
    has the key asked for, and the store is as before. *)
Lemma City_objects_get_inv (k : Z) (s s' : Store) (r : Res City) :
  City_objects_get k s = (r, s') →
  s' = s ∧ (∀ c, r = Ok c → In c (cities s) ∧ city_pk c = k)
  ∧ (r = Raise (DoesNotExist CityM) → ∀ c, In c (cities s) → city_pk c ≠ k).
Proof.
  unfold City_objects_get, bind, query, City_filter_pk.
  destruct (List.filter _ _) as [|x [|y l]] eqn:E; simpl; intros [= <- <-].
  - split; [reflexivity|]. split; [discriminate|].
    intros _ c Hc Hk.
    assert (Hin : In c (List.filter (λ c, city_pk c =? k) (cities s))).
    { apply filter_In. split; [exact Hc | now apply Z.eqb_eq]. }
    rewrite E in Hin. destruct Hin.
  - split; [reflexivity|]. split; [|discriminate].
    intros c [= <-].
    assert (Hin : In x (List.filter (λ c, city_pk c =? k) (cities s))).
    { rewrite E. now left. }
    apply filter_In in Hin as [Hin Hk]. split; [exact Hin | now apply Z.eqb_eq].
  - split; [reflexivity|]. split; discriminate.
Qed.

(** ** Computations that only read *)

Lemma read_only_ret {A : Type} (a : A) : read_only (ret a).
Proof. now intros s. Qed.

Lemma read_only_raise {A : Type} (e : exn) : read_only (@raise A e).
Proof. now intros s. Qed.

Lemma read_only_query {A : Type} (q : Store → A) : read_only (query q).
Proof. now intros s. Qed.

Lemma read_only_lift {A : Type} (r : PyError + A) : read_only (lift r).
Proof. destruct r; now intros s. Qed.

Lemma read_only_bind {A B : Type} (m : M A) (k : A → M B) :
  read_only m → (∀ a, read_only (k a)) → read_only (bind m k).
Proof.
  intros Hm Hk s. unfold bind. specialize (Hm s).
  destruct (m s) as [[a|e] s']; simpl in *; subst s'; [apply Hk | reflexivity].
Qed.

Lemma read_only_try_except {A : Type} (body : M A) (handler : exn → option (M A)) :
  read_only body →
  (∀ e, match handler e with Some h => read_only h | None => True end) →
  read_only (try_except body handler).
Proof.
  intros Hb Hh s. unfold try_except. specialize (Hb s).
  destruct (body s) as [[a|e] s']; simpl in *; subst s'; [reflexivity|].
  specialize (Hh e). destruct (handler e) as [h|]; [apply Hh | reflexivity].
Qed.

Lemma read_only_for_each {A B : Type} (l : list A) (body : B → A → M B) (acc : B) :
  (∀ b a, read_only (body b a)) → read_only (for_each l body acc).
Proof.
  intros Hb. revert acc.
  induction l as [|x l IH]; intros acc; simpl; [apply read_only_ret|].
  apply read_only_bind; [apply Hb | exact IH].
Qed.

Lemma read_only_objects_get {A : Type} (m : Model) (l : list A) :
  read_only (objects_get m l).
Proof. destruct l as [|x [|y l]]; now intros s. Qed.

Lemma read_only_getitem (v : json) (k : string) : read_only (getitem v k).
Proof.
  destruct v as [| | | | |d]; try (intros ?; reflexivity).
  simpl. destruct (assoc k d); intros ?; reflexivity.
Qed.

Lemma read_only_keys (v : json) : read_only (keys v).
Proof. destruct v; intros ?; reflexivity. Qed.

Lemma read_only_evaluate {A : Type} (q : QuerySet A) : read_only (evaluate q).
Proof. intros s. unfold evaluate. destruct (in_int64 (qs_key q)); reflexivity. Qed.

Lemma read_only_first {A : Type} (l : list A) : read_only (first l).
Proof. destruct l; now intros s. Qed.

Lemma read_only_City_objects_get (k : Z) : read_only (City_objects_get k).
Proof.
  apply read_only_bind; [apply read_only_query | intros l; apply read_only_objects_get].
Qed.

Ltac frame_step :=
  first
    [ apply read_only_ret
    | apply read_only_raise
    | apply read_only_query
    | apply read_only_lift
    | apply read_only_getitem
    | apply read_only_keys
    | apply read_only_first
    | apply read_only_evaluate
    | apply read_only_City_objects_get
    | apply read_only_objects_get
    | apply read_only_bind; [|intros ?]
    | apply read_only_for_each; intros ? ?
    | apply read_only_try_except; [|intros [[]| |]] ].

Ltac frame := repeat frame_step.

Lemma get_all_cities_read_only request n : read_only (get_all_cities request n).
Proof. unfold get_all_cities. frame. Qed.

Lemma get_city_by_name_read_only request p : read_only (get_city_by_name request p).
Proof. unfold get_city_by_name. frame. Qed.

Lemma get_all_city_images_read_only request k : read_only (get_all_city_images request k).
Proof.
  unfold get_all_city_images, CityImage_objects_filter. frame.
  all: match goal with a : _ + _ |- _ => destruct a end; frame.
Qed.

Lemma get_all_city_facts_read_only request k : read_only (get_all_city_facts request k).
Proof.
  unfold get_all_city_facts, CityFact_objects_filter. frame.
  all: match goal with a : _ + _ |- _ => destruct a end; frame.
Qed.

Lemma get_city_information_read_only request k :
  read_only (get_city_information request k).
Proof.
  unfold get_city_information. frame.
  all: match goal with a : _ + _ |- _ => destruct a end; frame.
Qed.

Lemma get_visited_city_read_only request u : read_only (get_visited_city request u).
Proof.
  unfold get_visited_city, Trip_city. frame.
  all: match goal with b : bool |- _ => destruct b end; simpl; frame.
Qed.

(** ** What the two writing views write *)

Lemma City_objects_get_Ok (k : Z) (s s' : Store) (c : City) :
  City_objects_get k s = (Ok c, s') →
  s' = s ∧ List.filter (λ x, city_pk x =? k) (cities s) = [c].
Proof.
  unfold City_objects_get, bind, query, City_filter_pk.
  destruct (List.filter _ _) as [|x [|y l]]; simpl; intros [= <- <-]; auto.
Qed.

Lemma same_but_nicknames_refl (s : Store) : same_but_nicknames s s.
Proof.
  unfold same_but_nicknames. repeat split; try reflexivity.
  induction (cities s); constructor; auto.
Qed.

Lemma save_row_replaces (c c' : City) (l : list City) :
  In c l → city_pk c' = city_pk c →
  save_row c' l = map (λ r, if city_pk r =? city_pk c then c' else r) l.
Proof.
  intros Hin Hpk. unfold save_row. rewrite Hpk.
  replace (existsb (λ r, city_pk r =? city_pk c) l) with true; [reflexivity|].
  symmetry. apply existsb_exists. exists c. split; [exact Hin | apply Z.eqb_refl].
Qed.

Lemma map_replace_same_keys (c c' : City) (l : list City) :
  (∀ r, In r l → city_pk r = city_pk c → r = c) →
  city_pk c' = city_pk c → city_name c' = city_name c →
  Forall2 (λ a b, city_pk b = city_pk a ∧ city_name b = city_name a)
          l (map (λ r, if city_pk r =? city_pk c then c' else r) l).
Proof.
  intros Hone Hpk Hname.
  induction l as [|x l IH]; simpl; constructor.
  - destruct (Z.eqb_spec (city_pk x) (city_pk c)) as [E|_]; [|auto].
    rewrite (Hone x (or_introl eq_refl) E). auto.
  - apply IH. intros r Hr. apply Hone. now right.
Qed.

Lemma filter_singleton_unique (k : Z) (c : City) (l : list City) :
  List.filter (λ x, city_pk x =? k) l = [c] →
  In c l ∧ city_pk c = k ∧ ∀ r, In r l → city_pk r = k → r = c.
Proof.
  intros E.
  assert (Hc : In c (List.filter (λ x, city_pk x =? k) l)) by (rewrite E; now left).
  apply filter_In in Hc as [Hc Hk]. apply Z.eqb_eq in Hk.
  repeat split; auto.
  intros r Hr Hrk.
  assert (Hin : In r (List.filter (λ x, city_pk x =? k) l)).
  { apply filter_In. split; [exact Hr | now apply Z.eqb_eq]. }
  rewrite E in Hin. destruct Hin as [->|[]]. reflexivity.
Qed.

Lemma get_city_final_store request k s :
  final_store (get_city request k s) = s
  ∨ final_store (get_city request k s)
    = with_city_visit_logs
        (city_visit_logs s ++ [ {| log_city := k; log_user := user_pk (user request) |} ]) s.
Proof.
  unfold final_store, get_city, try_except, bind, query, ret, CityVisitLog_save.
  cbn beta.
  destruct (City_objects_get k s) as [[c|e] s1] eqn:E.
  - apply City_objects_get_Ok in E as [-> E].
    apply filter_singleton_unique in E as (_ & <- & _).
    simpl.
    match goal with |- context [insert_error ?a ?b] => destruct (insert_error a b) end;
      simpl; [left | right]; reflexivity.
  - apply City_objects_get_inv in E as (-> & _).
    destruct e as [[]| |]; simpl; left; reflexivity.
Qed.

Lemma add_city_nickname_final_store request s :
  same_but_nicknames s (final_store (add_city_nickname request s)).
Proof.
  unfold final_store, add_city_nickname.
  destruct (truthy_str (POST request !! "city_id")) as [cid|];
    [|apply same_but_nicknames_refl].
  destruct (truthy_str (POST request !! "nickname")) as [nick|];
    [|apply same_but_nicknames_refl].
  unfold try_except, bind, ret, City_save. cbn beta.
  destruct (to_python cid) as [e|k]; simpl; [apply same_but_nicknames_refl|].
  destruct (City_objects_get k s) as [[c|e] s1] eqn:E.
  - apply City_objects_get_Ok in E as [-> E].
    apply filter_singleton_unique in E as (Hin & <- & Hone).
    match goal with |- context [update_error ?a ?b] => destruct (update_error a b) end;
      simpl; [apply same_but_nicknames_refl|].
    unfold same_but_nicknames; simpl. repeat split; try reflexivity.
    rewrite (save_row_replaces c); [|exact Hin|reflexivity].
    now apply map_replace_same_keys.
  - apply City_objects_get_inv in E as (-> & _).
    destruct e as [[]| |]; simpl; apply same_but_nicknames_refl.
Qed.

(** C10. The six listing and lookup views leave the store as they found
    it.  [get_city] changes nothing but the visit-log table, to which it
    appends at most the one row for this city and user, and it does append
    it when the city is there and the store accepts the row.
    [add_city_nickname] changes at most the nicknames of cities: no row
    is added or removed, and every other table is as before. *)
Theorem views_frame request :
  (∀ n s, final_store (get_all_cities request n s) = s)
  ∧ (∀ p s, final_store (get_city_by_name request p s) = s)
  ∧ (∀ k s, final_store (get_all_city_images request k s) = s)
  ∧ (∀ k s, final_store (get_all_city_facts request k s) = s)
  ∧ (∀ k s, final_store (get_city_information request k s) = s)
  ∧ (∀ u s, final_store (get_visited_city request u s) = s)
  ∧ (∀ k s,
       let log := {| log_city := k; log_user := user_pk (user request) |} in
       let s' := final_store (get_city request k s) in
       (s' = s ∨ s' = with_city_visit_logs (city_visit_logs s ++ [log]) s)
       ∧ ((∃ c, In c (cities s) ∧ city_pk c = k) → pk_unique s →
          insert_error s log = None →
          s' = with_city_visit_logs (city_visit_logs s ++ [log]) s))
  ∧ (∀ s, same_but_nicknames s (final_store (add_city_nickname request s))).
Proof.
  split; [intros n s; apply get_all_cities_read_only|].
  split; [intros q s; apply get_city_by_name_read_only|].
  split; [intros k s; apply get_all_city_images_read_only|].
  split; [intros k s; apply get_all_city_facts_read_only|].
  split; [intros k s; apply get_city_information_read_only|].
  split; [intros u s; apply get_visited_city_read_only|].
  split; [|apply add_city_nickname_final_store].
  intros k s log s'. split; [apply get_city_final_store|].
  intros (c & Hin & <-) Hu Hacc. subst s' log.
  unfold final_store, get_city, try_except, bind, query, ret, CityVisitLog_save.
  cbn beta. rewrite City_objects_get_found by assumption.
  simpl. now rewrite Hacc.
Qed.

(** ** Queries *)

Lemma exists_In {A : Type} (l : list A) : exists_ l = true ↔ ∃ x, In x l.
Proof.
  destruct l as [|x l]; simpl; split.
  - discriminate.
  - intros [x []].
  - intros _. exists x. now left.
  - reflexivity.
Qed.

Lemma has_trip_spec (k u : Z) (s : Store) :
  exists_ (Trip_filter_city_users k u s) = true
  ↔ ∃ t, In t (trips s) ∧ trip_city t = k ∧ In u (trip_users t).
Proof.
  rewrite exists_In. unfold Trip_filter_city_users.
  split; intros [t Ht]; exists t.
  - apply filter_In in Ht as [Hin Hb]. apply andb_true_iff in Hb as [Hc Hu].
    apply Z.eqb_eq in Hc. apply existsb_exists in Hu as (u' & Hu' & E).
    apply Z.eqb_eq in E. subst u'. auto.
  - destruct Ht as (Hin & Hc & Hu). apply filter_In. split; [exact Hin|].
    apply andb_true_iff. split; [now apply Z.eqb_eq|].
    apply existsb_exists. exists u. split; [exact Hu | apply Z.eqb_refl].
Qed.

Lemma In_firstn {A : Type} (n : nat) (l : list A) (x : A) :
  In x (firstn n l) → In x l.
Proof.
  revert l. induction n as [|n IH]; intros [|y l]; simpl; try (intros H; elim H; fail).
  intros [->|H]; [now left | right; now apply IH].
Qed.

Lemma istartswith_spec (prefix name : string) :
  istartswith prefix name = true ↔ starts_with_ci prefix name.
Proof.
  unfold starts_with_ci. revert name.
  induction prefix as [|a p IH]; intros name; simpl.
  - split; [|reflexivity]. intros _. now eexists.
  - destruct name as [|b t]; simpl.
    + split; [discriminate|]. intros [rest H]. discriminate.
    + rewrite andb_true_iff, Ascii.eqb_eq, IH. split.
      * intros [E [rest H]]. exists rest. now rewrite E, H.
      * intros [rest H]. injection H as E H. split; [now symmetry | now exists rest].
Qed.

(** ** Ordering by visit count *)

Lemma In_insert_desc (x p : City * nat) (l : list (City * nat)) :
  In p (insert_desc x l) ↔ p = x ∨ In p l.
Proof.
  induction l as [|y l IH]; simpl.
  - split; [intros [<-|[]]; now left | intros [->|[]]; now left].
  - destruct (x.2 <? y.2)%nat; simpl; [rewrite IH|].
    + split; [intros [<-|[->|H]] | intros [->|[<-|H]]]; auto.
    + split; [intros [<-|[<-|H]] | intros [->|[<-|H]]]; auto.
Qed.

Lemma length_insert_desc (x : City * nat) (l : list (City * nat)) :
  length (insert_desc x l) = S (length l).
Proof.
  induction l as [|y l IH]; simpl; [reflexivity|].
  destruct (x.2 <? y.2)%nat; simpl; [now rewrite IH | reflexivity].
Qed.

Lemma insert_desc_sorted (x : City * nat) (l : list (City * nat)) :
  StronglySorted by_count_desc l → StronglySorted by_count_desc (insert_desc x l).
Proof.
  induction 1 as [|y l Hs IH Hy]; simpl.
  - repeat constructor.
  - destruct (Nat.ltb_spec x.2 y.2) as [Hlt|Hge].
    + constructor; [exact IH|].
      apply List.Forall_forall. intros p Hp. apply In_insert_desc in Hp as [->|Hp].
      * unfold by_count_desc. lia.
      * rewrite List.Forall_forall in Hy. now apply Hy.
    + constructor; [now constructor|].
      constructor; [exact Hge|].
      rewrite List.Forall_forall in Hy |- *. intros p Hp.
      specialize (Hy p Hp). unfold by_count_desc in *. lia.
Qed.

Lemma order_by_sorted (l : list (City * nat)) :
  StronglySorted by_count_desc (order_by_visit_count_desc l).
Proof.
  induction l as [|x l IH]; simpl; [constructor | now apply insert_desc_sorted].
Qed.

Lemma In_order_by (p : City * nat) (l : list (City * nat)) :
  In p (order_by_visit_count_desc l) ↔ In p l.
Proof.
  induction l as [|x l IH]; simpl; [reflexivity|].
  rewrite In_insert_desc, IH. split; (intros [->|H]; [now left | now right]).
Qed.

Lemma length_order_by (l : list (City * nat)) :
  length (order_by_visit_count_desc l) = length l.
Proof.
  induction l as [|x l IH]; simpl; [reflexivity|].
  now rewrite length_insert_desc, IH.
Qed.

Lemma firstn_sorted {A : Type} (R : A → A → Prop) (n : nat) (l : list A) :
  StronglySorted R l → StronglySorted R (firstn n l).
Proof.
  intros Hs. revert n.
  induction Hs as [|x l Hs IH Hx]; intros [|n]; simpl; try constructor.
  - apply IH.
  - rewrite List.Forall_forall in Hx |- *. intros y Hy. apply Hx.
    now apply In_firstn in Hy.
Qed.

(** C6. [get_all_cities] answers 200 with the projections of at most
    [no_of_cities] cities (8 when the caller gives no limit; as many as
    the limit allows), each a city of the store annotated with the number
    of visit-log rows that reference it, in descending order of that
    number; the store is not written. *)
Theorem get_all_cities_top request no_of_cities s :
  ∃ l : list (City * nat),
    get_all_cities request no_of_cities s
    = (Ok {| data := Some (JList (map CityCondensedSerializer (map annotated l)));
             status := 200 |}, s)
    ∧ (length l ≤ default 8 no_of_cities)%nat
    ∧ length l = Nat.min (default 8%nat no_of_cities) (length (cities s))
    ∧ (∀ c n, In (c, n) l →
         In c (cities s)
         ∧ n = length (List.filter (λ v, log_city v =? city_pk c) (city_visit_logs s))
         ∧ visit_count (annotated (c, n)) = Some n)
    ∧ StronglySorted by_count_desc l.
Proof.
  eexists. split; [reflexivity|].
  split; [apply firstn_le_length|].
  split.
  { rewrite length_firstn, length_order_by. unfold annotate_visit_count.
    now rewrite length_map. }
  split.
  - intros c n Hin. apply In_firstn in Hin.
    apply (proj1 (In_order_by _ _)) in Hin.
    unfold annotate_visit_count in Hin. apply in_map_iff in Hin as (c' & E & Hc').
    injection E as -> <-. auto.
  - apply firstn_sorted. apply order_by_sorted.
Qed.

(** C7. [get_city_by_name] answers 200 with the projections of at most
    five cities of the store; the name of each starts with the prefix when
    case is ignored, so a city whose name does not is not among them. *)
Theorem get_city_by_name_prefix request city_prefix s :
  ∃ cs : list City,
    get_city_by_name request city_prefix s
    = (Ok {| data := Some (JList (map CityCondensedSerializer (map instance cs)));
             status := 200 |}, s)
    ∧ (length cs ≤ 5)%nat
    ∧ (∀ c, In c cs → In c (cities s) ∧ starts_with_ci city_prefix (city_name c))
    ∧ (∀ c, ¬ starts_with_ci city_prefix (city_name c) → ¬ In c cs).
Proof.
  eexists. split; [reflexivity|].
  split; [apply firstn_le_length|].
  assert (H : ∀ c, In c (firstn 5 (List.filter (λ c, istartswith city_prefix (city_name c))
                                    (cities s)))
              → In c (cities s) ∧ starts_with_ci city_prefix (city_name c)).
  { intros c Hin. apply In_firstn, filter_In in Hin as [Hin Hb].
    split; [exact Hin | now apply istartswith_spec]. }
  split; [exact H|].
  intros c Hno Hin. apply Hno. now apply H.
Qed.

(** C3. When the store holds a city with the given id, [get_city] answers
    200 with the full projection of that city, on which [has_visited] is
    set to a boolean that is true exactly when some trip to the city has
    the requesting user among its users; when the store holds no such
    city, it answers 404 with no body. *)
Theorem get_city_found_or_404 request city_id s :
  (∀ c, pk_unique s → In c (cities s) → city_pk c = city_id →
     ∃ b : bool,
       response (get_city request city_id s)
       = Ok {| data := Some (CitySerializer
                               {| row := c; has_visited := Some b; visit_count := None |});
               status := 200 |}
       ∧ (b = true ↔ ∃ t, In t (trips s) ∧ trip_city t = city_id
                          ∧ In (user_pk (user request)) (trip_users t)))
  ∧ ((∀ c, In c (cities s) → city_pk c ≠ city_id) →
     get_city request city_id s = (Ok {| data := None; status := 404 |}, s)).
Proof.
  split.
  - intros c Hu Hin <-.
    exists (exists_ (Trip_filter_city_users (city_pk c) (user_pk (user request)) s)).
    split; [|apply has_trip_spec].
    unfold response, get_city, try_except, bind, query, ret, CityVisitLog_save.
    cbn beta. rewrite City_objects_get_found by assumption. simpl.
    match goal with |- context [insert_error ?a ?b] => destruct (insert_error a b) end;
      reflexivity.
  - intros Hno.
    unfold get_city, try_except, bind, query, ret. cbn beta.
    now rewrite City_objects_get_missing.
Qed.


(** ** The cities of a user's trips *)

Lemma pk_unique_eq (s : Store) (a b : City) :
  pk_unique s → In a (cities s) → In b (cities s) → city_pk a = city_pk b → a = b.
Proof.
  intros Hu Ha Hb E.
  pose proof (filter_pk_found b (cities s) Hu Hb) as Hf.
  apply filter_singleton_unique in Hf as (_ & _ & Hone). now apply Hone.
Qed.

Lemma In_set_add (s : Store) (c c' : City) (acc : list City) :
  pk_unique s → In c (cities s) → (∀ x, In x acc → In x (cities s)) →
  (In c' (set_add c acc) ↔ In c' acc ∨ c' = c).
Proof.
  intros Hu Hc Hacc. unfold set_add.
  destruct (existsb _ acc) eqn:E.
  - apply existsb_exists in E as (x & Hx & Hpk). apply Z.eqb_eq in Hpk.
    assert (x = c) as -> by (apply (pk_unique_eq s); auto).
    split; [auto|]. intros [H| ->]; assumption.
  - rewrite in_app_iff. simpl.
    split; [intros [H|[<-|[]]] | intros [H| ->]]; auto.
Qed.

Lemma NoDup_set_add (c : City) (acc : list City) :
  List.NoDup (map city_pk acc) → List.NoDup (map city_pk (set_add c acc)).
Proof.
  intros Hnd. unfold set_add.
  destruct (existsb _ acc) eqn:E; [exact Hnd|].
  rewrite map_app. simpl.
  apply NoDup_Add with (a := city_pk c) (l := map city_pk acc).
  - rewrite <- (app_nil_r (map city_pk acc)) at 1. apply Add_app.
  - split; [exact Hnd|].
    intros Hin. apply in_map_iff in Hin as (x & Hpk & Hx).
    assert (existsb (λ x, city_pk x =? city_pk c) acc = true) as E'.
    { apply existsb_exists. exists x. split; [exact Hx | now apply Z.eqb_eq]. }
    congruence.
Qed.

Lemma visited_loop (s : Store) (ts : list Trip) :
  pk_unique s →
  (∀ t, In t ts → ∃ c, In c (cities s) ∧ city_pk c = trip_city t) →
  ∀ acc, List.NoDup (map city_pk acc) → (∀ x, In x acc → In x (cities s)) →
  ∃ cs, for_each ts (λ cities trip, let* city := Trip_city trip in
                                    ret (set_add city cities)) acc s = (Ok cs, s)
        ∧ List.NoDup (map city_pk cs)
        ∧ ∀ c, In c cs ↔ In c acc ∨ (In c (cities s) ∧ ∃ t, In t ts ∧ trip_city t = city_pk c).
Proof.
  intros Hu. induction ts as [|t ts IH]; intros Hfk acc Hnd Hacc.
  - exists acc. split; [reflexivity|]. split; [exact Hnd|].
    intros c. split; [auto|]. intros [H|(_ & t & [] & _)]. exact H.
  - destruct (Hfk t (or_introl eq_refl)) as (c & Hc & Hpk).
    destruct (IH (λ t' H, Hfk t' (or_intror H)) (set_add c acc)) as (cs & Hrun & Hnd' & Hcs).
    { now apply NoDup_set_add. }
    { intros x Hx. apply (In_set_add s) in Hx as [Hx| ->]; auto. }
    exists cs. split; [|split; [exact Hnd'|]].
    + simpl. unfold bind at 1. unfold bind at 1. unfold Trip_city.
      rewrite <- Hpk, City_objects_get_found by assumption. exact Hrun.
    + intros c'. rewrite Hcs, (In_set_add s) by assumption. split.
      * intros [[H| ->]|(Hc' & t' & Ht' & E)]; [auto| |].
        -- right. split; [exact Hc|]. exists t. split; [now left | now symmetry].
        -- right. split; [exact Hc'|]. exists t'. split; [now right | exact E].
      * intros [H|(Hc' & t' & [<-|Ht'] & E)]; [auto| |].
        -- left. right. apply (pk_unique_eq s); auto. congruence.
        -- right. split; [exact Hc'|]. now exists t'.
Qed.

Lemma user_exists_spec (u : Z) (s : Store) :
  exists_ (User_filter_id u s) = true ↔ ∃ x, In x (users s) ∧ user_pk x = u.
Proof.
  rewrite exists_In. unfold User_filter_id.
  split; intros [x Hx]; exists x.
  - apply filter_In in Hx as [Hin E]. apply Z.eqb_eq in E. auto.
  - destruct Hx as [Hin E]. apply filter_In. split; [exact Hin | now apply Z.eqb_eq].
Qed.

Lemma In_Trip_filter_users (u : Z) (s : Store) (t : Trip) :
  In t (Trip_filter_users u s) ↔ In t (trips s) ∧ In u (trip_users t).
Proof.
  unfold Trip_filter_users. rewrite filter_In, existsb_exists. split.
  - intros (Hin & u' & Hu' & E). apply Z.eqb_eq in E. subst u'. auto.
  - intros [Hin Hu]. split; [exact Hin|]. exists u. split; [exact Hu | apply Z.eqb_refl].
Qed.

Lemma resolves_to_target (user_id : option Z) (request : Request) (target : Z) :
  resolves_to user_id request target →
  match truthy_int user_id with
  | Some u => u
  | None => user_pk (user request)
  end = target.
Proof.
  intros [[-> Hnz]|[[->| ->] ->]]; simpl; try reflexivity.
  destruct (Z.eqb_spec target 0); [contradiction | reflexivity].
Qed.

(** C5. With the target user resolved from the parameter or the
    requester: when no user has the target id, [get_visited_city] answers
    404; otherwise it answers 200 with the condensed projections of the
    cities that occur in the trips of the target user, each city once
    however many trips go there, and of no other city; with no trip the
    list is empty.  The store is not written. *)
Theorem get_visited_city_distinct request user_id target s :
  resolves_to user_id request target →
  ((∀ u, In u (users s) → user_pk u ≠ target) →
     get_visited_city request user_id s
     = (Ok {| data := Some (JStr "User does not exists."); status := 404 |}, s))
  ∧ ((∃ u, In u (users s) ∧ user_pk u = target) → pk_unique s → trip_city_fk s →
     ∃ cs : list City,
       get_visited_city request user_id s
       = (Ok {| data := Some (JList (map CityCondensedSerializer (map instance cs)));
                status := 200 |}, s)
       ∧ List.NoDup cs ∧ List.NoDup (map city_pk cs)
       ∧ (∀ c, In c cs ↔ In c (cities s)
                         ∧ ∃ t, In t (trips s) ∧ In target (trip_users t)
                                ∧ trip_city t = city_pk c)
       ∧ ((∀ t, In t (trips s) → ¬ In target (trip_users t)) → cs = [])).
Proof using Type*.
  intros Hres. apply resolves_to_target in Hres.
  unfold get_visited_city. rewrite Hres.
  erewrite run_bind_Ok by reflexivity.
  split.
  - intros Hno.
    destruct (exists_ (User_filter_id target s)) eqn:E; [|reflexivity].
    apply user_exists_spec in E as (u & Hu & Hpk). now destruct (Hno u Hu).
  - intros Hex Hu Hfk. apply user_exists_spec in Hex. rewrite Hex. simpl.
    destruct (visited_loop s (Trip_filter_users target s) Hu) with (acc := @nil City)
      as (cs & Hrun & Hnd & Hcs).
    { intros t Ht. apply In_Trip_filter_users in Ht as [Ht _]. now apply Hfk. }
    { constructor. }
    { intros x []. }
    pose proof (set_iter_order_perm cs) as Hperm.
    exists (set_iter_order cs).
    assert (Hin : ∀ c, In c (set_iter_order cs)
                       ↔ In c (cities s)
                         ∧ ∃ t, In t (trips s) ∧ In target (trip_users t)
                                ∧ trip_city t = city_pk c).
    { intros c. split.
      - intros H. apply (Permutation_in _ Hperm) in H.
        apply Hcs in H as [[]|(Hc & t & Ht & E)]. split; [exact Hc|].
        apply In_Trip_filter_users in Ht as [Ht Hut]. now exists t.
      - intros (Hc & t & Ht & Hut & E).
        apply (Permutation_in _ (Permutation_sym Hperm)). apply Hcs. right.
        split; [exact Hc|]. exists t. split; [|exact E].
        now apply In_Trip_filter_users. }
    assert (Hnd' : List.NoDup (map city_pk (set_iter_order cs))).
    { apply (Permutation_NoDup (l := map city_pk cs)); [|exact Hnd].
      apply Permutation_map, Permutation_sym, Hperm. }
    split.
    { erewrite run_bind_Ok by reflexivity.
      erewrite run_bind_Ok by exact Hrun. reflexivity. }
    split; [now apply NoDup_map_inv in Hnd'|].
    split; [exact Hnd'|]. split; [exact Hin|].
    intros Hnone. destruct (set_iter_order cs) as [|c l]; [reflexivity|].
    destruct (proj1 (Hin c) (or_introl eq_refl)) as (_ & t & Ht & Hut & _).
    now destruct (Hnone t Ht).
Qed.

(** ** The enrichment pipeline *)

Ltac run_information c :=
  unfold get_city_information, try_except, bind, lift, ret, raise; cbn beta;
  rewrite (City_objects_get_found c) by assumption; cbn beta iota.

Lemma information_key_extraction request (c : City) (s : Store) (body : string) (data : json) :
  pk_unique s → In c (cities s) →
  requests_get (wiki_api_url (city_name c)) = inr body →
  response_json body = inr data →
  (∀ extract, ¬ first_page_extract data extract) →
  get_city_information request (city_pk c) s = (Ok DOWNSTREAM_ERROR_RESPONSE, s).
Proof.
  intros Hu Hin Hreq Hjson Hno. run_information c.
  rewrite Hreq, Hjson; cbn beta iota.
  destruct data as [| | | | |d]; try reflexivity. simpl.
  destruct (assoc "query" d) as [[| | | | |q]|] eqn:Eq; try reflexivity. simpl.
  destruct (assoc "pages" q) as [[| | | | |pages]|] eqn:Ep; try reflexivity. simpl.
  destruct pages as [|[k page] rest]; try reflexivity. simpl.
  rewrite String.eqb_refl.
  destruct page as [| | | | |p]; try reflexivity. simpl.
  destruct (assoc "extract" p) as [extract|] eqn:Ee; [|reflexivity].
  exfalso. apply (Hno extract). now exists d, q, k, p, rest.
Qed.

Lemma information_after_extraction request (c : City) (s : Store) (body : string)
      (data extract : json) :
  pk_unique s → In c (cities s) →
  requests_get (wiki_api_url (city_name c)) = inr body →
  response_json body = inr data →
  first_page_extract data extract →
  get_city_information request (city_pk c) s
  = (Ok match clean_wiki_extract extract with
        | inl _ => DOWNSTREAM_ERROR_RESPONSE
        | inr cleaned =>
            match extract_as_dict cleaned with
            | inl _ => DOWNSTREAM_ERROR_RESPONSE
            | inr city_detail => {| data := Some city_detail; status := 200 |}
            end
        end, s).
Proof.
  intros Hu Hin Hreq Hjson (d & q & k & p & rest & -> & Hq & Hp & He).
  run_information c. rewrite Hreq, Hjson; cbn beta iota.
  simpl. rewrite Hq. simpl. rewrite Hp. simpl.
  rewrite String.eqb_refl. simpl. rewrite He.
  unfold ret. cbn beta iota.
  destruct (clean_wiki_extract extract) as [e|cleaned]; [reflexivity|].
  destruct (extract_as_dict cleaned) as [e|city_detail]; reflexivity.
Qed.

(** C2. When the store holds no city with the given id,
    [get_city_information] answers 404.  When it holds one: if the
    outbound call raises, or the body does not decode, or the decoded
    value has no first page with an extract, or cleaning raises, or
    sectioning raises, the answer is [DOWNSTREAM_ERROR_RESPONSE] itself,
    of status 503; when every step succeeds the answer is 200 with the
    dictionary of sections.  The store is not written. *)
Theorem get_city_information_outcomes request city_id s :
  ((∀ c, In c (cities s) → city_pk c ≠ city_id) →
     get_city_information request city_id s
     = (Ok {| data := Some (JStr "City does not exist"); status := 404 |}, s))
  ∧ (∀ c, pk_unique s → In c (cities s) → city_pk c = city_id →
       let unavailable :=
         get_city_information request city_id s = (Ok DOWNSTREAM_ERROR_RESPONSE, s) in
       (∀ e, requests_get (wiki_api_url (city_name c)) = inl e → unavailable)
       ∧ (∀ body, requests_get (wiki_api_url (city_name c)) = inr body →
          (∀ e, response_json body = inl e → unavailable)
          ∧ (∀ data, response_json body = inr data →
             ((∀ extract, ¬ first_page_extract data extract) → unavailable)
             ∧ (∀ extract, first_page_extract data extract →
                (∀ e, clean_wiki_extract extract = inl e → unavailable)
                ∧ (∀ cleaned, clean_wiki_extract extract = inr cleaned →
                   (∀ e, extract_as_dict cleaned = inl e → unavailable)
                   ∧ (∀ city_detail, extract_as_dict cleaned = inr city_detail →
                      get_city_information request city_id s
                      = (Ok {| data := Some city_detail; status := 200 |}, s)))))))
  ∧ status DOWNSTREAM_ERROR_RESPONSE = 503.
Proof.
  split; [|split; [|reflexivity]].
  - intros Hno.
    unfold get_city_information, try_except, bind, ret; cbn beta.
    now rewrite City_objects_get_missing.
  - intros c Hu Hin <- unavailable. subst unavailable. split.
    { intros e Hreq. run_information c. now rewrite Hreq. }
    intros body Hreq. split.
    { intros e Hjson. run_information c. now rewrite Hreq, Hjson. }
    intros data Hjson. split.
    { now apply information_key_extraction with (body := body). }
    intros extract Hex.
    pose proof (information_after_extraction request c s body data extract
                  Hu Hin Hreq Hjson Hex) as Hrun.
    split.
    { intros e Hclean. now rewrite Hclean in Hrun. }
    intros cleaned Hclean. rewrite Hclean in Hrun. split.
    { intros e Hdict. now rewrite Hdict in Hrun. }
    intros city_detail Hdict. now rewrite Hdict in Hrun.
Qed.

(** ** Setting a nickname *)

Lemma truthy_str_Some (v : option string) (x : string) :
  truthy_str v = Some x ↔ v = Some x ∧ x ≠ "".
Proof.
  unfold truthy_str. destruct v as [y|]; [|split; [discriminate | intros [[=] _]]].
  destruct (String.eqb_spec y "") as [->|Hne]; split.
  - discriminate.
  - intros [[= <-] H]. now destruct H.
  - intros [= <-]. auto.
  - intros [[= <-] _]. reflexivity.
Qed.

Lemma truthy_str_None (v : option string) :
  truthy_str v = None ↔ v = None ∨ v = Some "".
Proof.
  unfold truthy_str. destruct v as [y|]; [|split; auto].
  destruct (String.eqb_spec y "") as [->|Hne]; split; auto; try discriminate.
  intros [[=]|[= ->]]. now destruct Hne.
Qed.

Lemma map_replace_keys (c c' : City) (l : list City) :
  city_pk c' = city_pk c →
  map city_pk (map (λ r, if city_pk r =? city_pk c then c' else r) l) = map city_pk l.
Proof.
  intros Hpk. rewrite map_map. apply map_ext. intros r.
  destruct (Z.eqb_spec (city_pk r) (city_pk c)); congruence.
Qed.

Lemma In_map_replace (c c' r : City) (l : list City) :
  In c l →
  (In r (map (λ x, if city_pk x =? city_pk c then c' else x) l)
   ↔ r = c' ∨ (In r l ∧ city_pk r ≠ city_pk c)).
Proof.
  intros Hc. rewrite in_map_iff. split.
  - intros (x & E & Hx).
    destruct (Z.eqb_spec (city_pk x) (city_pk c)) as [_|Hne]; subst r; auto.
  - intros [->|[Hr Hne]].
    + exists c. rewrite Z.eqb_refl. auto.
    + exists r. destruct (Z.eqb_spec (city_pk r) (city_pk c)); [contradiction | auto].
Qed.

Ltac run_nickname Hcid Hnick :=
  unfold add_city_nickname; rewrite Hcid, Hnick;
  unfold try_except, bind, lift, ret, raise, City_save; cbn beta iota.

(** C1, as the code has it.  A request whose [city_id] or [nickname] is
    absent or empty is answered 400 with the message naming the
    parameters, and nothing is written.  With both given and not empty: a
    [city_id] that is no number is answered 400 with the error's text;
    when no city has that id the answer is 404; when the city is there and
    the store accepts the row, the city's nickname is replaced, every
    other city is as before, a later lookup of the id yields the city
    with the new nickname, and the answer is 201 with the success
    message; when the store rejects the row the answer is 400 with the
    error's text and nothing is written. *)
Theorem add_city_nickname_outcomes request s :
  ((POST request !! "city_id" = None ∨ POST request !! "city_id" = Some ""
    ∨ POST request !! "nickname" = None ∨ POST request !! "nickname" = Some "") →
   add_city_nickname request s
   = (Ok {| data := Some (JStr "Missing parameters in request. Send city_id, nickname");
            status := 400 |}, s))
  ∧ (∀ cid nick,
       POST request !! "city_id" = Some cid → cid ≠ "" →
       POST request !! "nickname" = Some nick → nick ≠ "" →
       (∀ e, to_python cid = inl e →
          add_city_nickname request s
          = (Ok {| data := Some (JStr (err_text e)); status := 400 |}, s))
       ∧ (∀ k, to_python cid = inr k →
          ((∀ c, In c (cities s) → city_pk c ≠ k) →
           ∃ body, add_city_nickname request s
                   = (Ok {| data := Some body; status := 404 |}, s))
          ∧ (∀ c, pk_unique s → In c (cities s) → city_pk c = k →
             let c' := set_nickname nick c in
             (update_error s c' = None →
              ∃ s', add_city_nickname request s
                    = (Ok {| data := Some (JStr "Successfully added nickname.");
                             status := 201 |}, s')
                    ∧ City_objects_get k s' = (Ok c', s')
                    ∧ nickname c' = Some nick
                    ∧ (∀ r, In r (cities s') ↔ r = c' ∨ (In r (cities s) ∧ city_pk r ≠ k))
                    ∧ same_but_nicknames s s')
             ∧ (∀ e, update_error s c' = Some e →
                add_city_nickname request s
                = (Ok {| data := Some (JStr (err_text e)); status := 400 |}, s))))).
Proof.
  split.
  - intros Hmiss. unfold add_city_nickname.
    destruct (truthy_str (POST request !! "city_id")) as [cid|] eqn:Ec; [|reflexivity].
    destruct (truthy_str (POST request !! "nickname")) as [nick|] eqn:En; [|reflexivity].
    apply truthy_str_Some in Ec as [Ec Hc], En as [En Hn].
    rewrite Ec, En in Hmiss. destruct Hmiss as [[=]|[[= ->]|[[=]|[= ->]]]]; congruence.
  - intros cid nick Ec Hc En Hn.
    assert (Hcid : truthy_str (POST request !! "city_id") = Some cid)
      by now apply truthy_str_Some.
    assert (Hnick : truthy_str (POST request !! "nickname") = Some nick)
      by now apply truthy_str_Some.
    split.
    { intros e Hconv. run_nickname Hcid Hnick. now rewrite Hconv. }
    intros k Hconv. split.
    { intros Hno. eexists. run_nickname Hcid Hnick. rewrite Hconv. cbn beta iota.
      rewrite City_objects_get_missing by assumption. reflexivity. }
    intros c Hu Hin <- c'. split.
    + intros Hacc.
      exists (with_cities (map (λ r, if city_pk r =? city_pk c then c' else r) (cities s)) s).
      split; [|split; [|split; [reflexivity|split]]].
      * run_nickname Hcid Hnick. rewrite Hconv. cbn beta iota.
        rewrite (City_objects_get_found c) by assumption. cbn beta iota.
        fold c'. rewrite Hacc.
        now rewrite (save_row_replaces c c') by (assumption || reflexivity).
      * apply (City_objects_get_found c').
        -- unfold pk_unique. simpl. now rewrite map_replace_keys.
        -- simpl. apply In_map_replace; auto.
      * intros r. simpl. now apply In_map_replace.
      * unfold same_but_nicknames. simpl. repeat split; try reflexivity.
        apply map_replace_same_keys; [|reflexivity|reflexivity].
        intros r Hr E. now apply (pk_unique_eq s).
    + intros e Hrej. run_nickname Hcid Hnick. rewrite Hconv. cbn beta iota.
      rewrite (City_objects_get_found c) by assumption. cbn beta iota.
      fold c'. now rewrite Hrej.
Qed.

End Views.

(** ** The visit log is best effort *)

(** C4. The response of [get_city] does not depend on what the store says
    to the visit-log insert: whether the row is accepted or the insert
    raises, with whatever exception, status and body are the same. *)
Theorem get_city_response_ignores_visit_log
        (CitySerializer : CityObj → json)
        (insert_error insert_error' : Store → CityVisitLog → option exn)
        (request : Request) (city_id : Z) (s : Store) :
  response (get_city CitySerializer insert_error request city_id s)
  = response (get_city CitySerializer insert_error' request city_id s).
Proof.
  unfold response, get_city, try_except, bind, query, ret, CityVisitLog_save.
  cbn beta.
  destruct (City_objects_get city_id s) as [[c|e] s1]; cbn beta iota.
  - destruct (insert_error s1 _), (insert_error' s1 _); reflexivity.
  - destruct e as [[]| |]; reflexivity.
Qed.

(** ** The views on the small store *)

Lemma sample_store_pk_unique : pk_unique sample_store.
Proof.
  unfold pk_unique. simpl.
  repeat (constructor; [simpl; intros H; repeat (destruct H as [H|H]; [discriminate|]);
                        exact H|]).
  constructor.
Qed.

Lemma sample_store_trip_city_fk : trip_city_fk sample_store.
Proof.
  intros t Ht. simpl in Ht.
  destruct Ht as [<-|[<-|[<-|[]]]]; simpl.
  - exists paris. split; [now left | reflexivity].
  - exists lyon. split; [right; right; now left | reflexivity].
  - exists paris. split; [now left | reflexivity].
Qed.

Lemma sample_store_no_city (k : Z) :
  k ≠ 1 → k ≠ 2 → k ≠ 3 → ∀ c, In c (cities sample_store) → city_pk c ≠ k.
Proof.
  intros H1 H2 H3 c Hc. simpl in Hc.
  destruct Hc as [<-|[<-|[<-|[]]]]; simpl; congruence.
Qed.

Lemma sample_store_no_user (u : Z) :
  u ≠ 7 → u ≠ 8 → u ≠ 9 → ∀ x, In x (users sample_store) → user_pk x ≠ u.
Proof.
  intros H1 H2 H3 x Hx. simpl in Hx.
  destruct Hx as [<-|[<-|[<-|[]]]]; simpl; congruence.
Qed.

Lemma rev_perm (l : list City) : Permutation (rev l) l.
Proof. apply Permutation_sym, Permutation_rev. Qed.

(** A request that gives the nickname field, empty, for an id no city has:
    the answer is 400, not 404. *)
Lemma add_city_nickname_empty_nickname_is_400 :
  POST (sample_request 7 [("city_id", "99"); ("nickname", "")]) !! "city_id" = Some "99"
  ∧ POST (sample_request 7 [("city_id", "99"); ("nickname", "")]) !! "nickname" = Some ""
  ∧ sample_to_python "99" = inr 99
  ∧ (∀ c, In c (cities sample_store) → city_pk c ≠ 99)
  ∧ add_city_nickname accept sample_to_python
      (sample_request 7 [("city_id", "99"); ("nickname", "")]) sample_store
    = (Ok {| data := Some (JStr "Missing parameters in request. Send city_id, nickname");
             status := 400 |}, sample_store)
  ∧ ¬ (∃ r, response (add_city_nickname accept sample_to_python
                        (sample_request 7 [("city_id", "99"); ("nickname", "")])
                        sample_store) = Ok r
            ∧ status r = 404).
Proof.
  split; [reflexivity|]. split; [reflexivity|]. split; [reflexivity|].
  split; [apply sample_store_no_city; discriminate|].
  split; [reflexivity|].
  intros (r & Hr & Hs). vm_compute in Hr. injection Hr as <-. discriminate.
Qed.

Lemma add_city_nickname_outcomes_witness :
  (∃ s', add_city_nickname accept sample_to_python
           (sample_request 7 [("city_id", "3"); ("nickname", "Capital of Gaul")]) sample_store
         = (Ok {| data := Some (JStr "Successfully added nickname."); status := 201 |}, s')
         ∧ City_objects_get 3 s' = (Ok (set_nickname "Capital of Gaul" lyon), s')
         ∧ nickname (set_nickname "Capital of Gaul" lyon) = Some "Capital of Gaul"
         ∧ (∀ r, In r (cities s')
                 ↔ r = set_nickname "Capital of Gaul" lyon
                   ∨ (In r (cities sample_store) ∧ city_pk r ≠ 3))
         ∧ same_but_nicknames sample_store s')
  ∧ add_city_nickname reject sample_to_python
      (sample_request 7 [("city_id", "3"); ("nickname", "Capital of Gaul")]) sample_store
    = (Ok {| data := Some (JStr "database is locked"); status := 400 |}, sample_store)
  ∧ (∃ body, add_city_nickname accept sample_to_python
               (sample_request 7 [("city_id", "99"); ("nickname", "Nowhere")]) sample_store
             = (Ok {| data := Some body; status := 404 |}, sample_store))
  ∧ add_city_nickname accept sample_to_python
      (sample_request 7 [("city_id", "3")]) sample_store
    = (Ok {| data := Some (JStr "Missing parameters in request. Send city_id, nickname");
             status := 400 |}, sample_store).
Proof.
  split; [|split; [|split]].
  - destruct (add_city_nickname_outcomes accept sample_to_python
                (sample_request 7 [("city_id", "3"); ("nickname", "Capital of Gaul")])
                sample_store) as [_ H].
    destruct (H "3" "Capital of Gaul" eq_refl ltac:(discriminate) eq_refl ltac:(discriminate))
      as [_ Hk].
    destruct (Hk 3 eq_refl) as [_ Hc].
    destruct (Hc lyon sample_store_pk_unique ltac:(simpl; auto) eq_refl) as [Hok _].
    exact (Hok eq_refl).
  - destruct (add_city_nickname_outcomes reject sample_to_python
                (sample_request 7 [("city_id", "3"); ("nickname", "Capital of Gaul")])
                sample_store) as [_ H].
    destruct (H "3" "Capital of Gaul" eq_refl ltac:(discriminate) eq_refl ltac:(discriminate))
      as [_ Hk].
    destruct (Hk 3 eq_refl) as [_ Hc].
    destruct (Hc lyon sample_store_pk_unique ltac:(simpl; auto) eq_refl) as [_ Hrej].
    exact (Hrej (sample_error "database is locked") eq_refl).
  - destruct (add_city_nickname_outcomes accept sample_to_python
                (sample_request 7 [("city_id", "99"); ("nickname", "Nowhere")])
                sample_store) as [_ H].
    destruct (H "99" "Nowhere" eq_refl ltac:(discriminate) eq_refl ltac:(discriminate))
      as [_ Hk].
    destruct (Hk 99 eq_refl) as [Hmissing _].
    apply Hmissing. apply sample_store_no_city; discriminate.
  - destruct (add_city_nickname_outcomes accept sample_to_python
                (sample_request 7 [("city_id", "3")]) sample_store) as [H _].
    apply H. right. right. left. reflexivity.
Defined.

Lemma get_city_information_outcomes_witness :
  get_city_information sample_clean sample_as_dict sample_requests_get sample_response_json
    JNull (sample_request 7 []) 3 sample_store
  = (Ok {| data := Some (JDict [("summary", JStr "lyon-page")]); status := 200 |}, sample_store)
  ∧ get_city_information sample_clean sample_as_dict sample_requests_get sample_response_json
      JNull (sample_request 7 []) 1 sample_store
    = (Ok (DOWNSTREAM_ERROR_RESPONSE JNull), sample_store)
  ∧ get_city_information sample_clean sample_as_dict sample_requests_get sample_response_json
      JNull (sample_request 7 []) 4 sample_store
    = (Ok {| data := Some (JStr "City does not exist"); status := 404 |}, sample_store).
Proof.
  split; [|split].
  - destruct (get_city_information_outcomes sample_clean sample_as_dict sample_requests_get
                sample_response_json JNull (sample_request 7 []) 3 sample_store)
      as (_ & H & _).
    destruct (H lyon sample_store_pk_unique ltac:(simpl; auto) eq_refl) as [_ Hbody].
    destruct (Hbody "lyon-page" eq_refl) as [_ Hdata].
    destruct (Hdata _ eq_refl) as [_ Hextract].
    assert (Hfirst : first_page_extract
                       (JDict [("batchcomplete", JStr "");
                               ("query", JDict [("pages",
                                  JDict [("8638", JDict [("pageid", JInt 8638);
                                                         ("extract", JStr "lyon-page")])])])])
                       (JStr "lyon-page")).
    { unfold first_page_extract. do 5 eexists.
      split; [reflexivity|]. split; [reflexivity|]. split; reflexivity. }
    destruct (Hextract _ Hfirst) as [_ Hclean].
    destruct (Hclean _ eq_refl) as [_ Hdict].
    exact (Hdict _ eq_refl).
  - destruct (get_city_information_outcomes sample_clean sample_as_dict sample_requests_get
                sample_response_json JNull (sample_request 7 []) 1 sample_store)
      as (_ & H & _).
    destruct (H paris sample_store_pk_unique ltac:(simpl; auto) eq_refl) as [Hcall _].
    exact (Hcall (sample_error "connection refused") eq_refl).
  - destruct (get_city_information_outcomes sample_clean sample_as_dict sample_requests_get
                sample_response_json JNull (sample_request 7 []) 4 sample_store)
      as (Hmissing & _).
    apply Hmissing. apply sample_store_no_city; discriminate.
Defined.

Lemma get_city_found_or_404_witness :
  (∃ b : bool,
     response (get_city sample_city_serializer (raising (DoesNotExist CityM)) (sample_request 7 []) 3 sample_store)
     = Ok {| data := Some (sample_city_serializer
                             {| row := lyon; has_visited := Some b; visit_count := None |});
             status := 200 |}
     ∧ (b = true ↔ ∃ t, In t (trips sample_store) ∧ trip_city t = 3
                        ∧ In (user_pk (user (sample_request 7 []))) (trip_users t)))
  ∧ get_city sample_city_serializer (raising (DoesNotExist CityM)) (sample_request 7 []) 4 sample_store
    = (Ok {| data := None; status := 404 |}, sample_store).
Proof.
  split.
  - destruct (get_city_found_or_404 sample_city_serializer (raising (DoesNotExist CityM)) (sample_request 7 [])
                3 sample_store) as [H _].
    exact (H lyon sample_store_pk_unique ltac:(simpl; auto) eq_refl).
  - destruct (get_city_found_or_404 sample_city_serializer (raising (DoesNotExist CityM)) (sample_request 7 [])
                4 sample_store) as [_ H].
    apply H. apply sample_store_no_city; discriminate.
Defined.

Lemma get_visited_city_distinct_witness :
  (∃ cs : list City,
     get_visited_city sample_condensed_serializer (@rev City) (sample_request 7 []) None
       sample_store
     = (Ok {| data := Some (JList (map sample_condensed_serializer (map instance cs)));
              status := 200 |}, sample_store)
     ∧ List.NoDup cs ∧ List.NoDup (map city_pk cs)
     ∧ (∀ c, In c cs ↔ In c (cities sample_store)
                       ∧ ∃ t, In t (trips sample_store) ∧ In 7 (trip_users t)
                              ∧ trip_city t = city_pk c)
     ∧ ((∀ t, In t (trips sample_store) → ¬ In 7 (trip_users t)) → cs = []))
  ∧ get_visited_city sample_condensed_serializer (@rev City) (sample_request 7 []) (Some 42)
      sample_store
    = (Ok {| data := Some (JStr "User does not exists."); status := 404 |}, sample_store).
Proof.
  split.
  - destruct (get_visited_city_distinct sample_condensed_serializer (@rev City) rev_perm
                (sample_request 7 []) None 7 sample_store) as [_ H].
    + right. split; [now left | reflexivity].
    + apply H.
      * exists {| user_pk := 7 |}. split; [now left | reflexivity].
      * exact sample_store_pk_unique.
      * exact sample_store_trip_city_fk.
  - destruct (get_visited_city_distinct sample_condensed_serializer (@rev City) rev_perm
                (sample_request 7 []) (Some 42) 42 sample_store) as [H _].
    + left. split; [reflexivity | discriminate].
    + apply H. apply sample_store_no_user; discriminate.
Defined.

Lemma views_frame_witness :
  final_store (get_city sample_city_serializer accept (sample_request 9 []) 2 sample_store)
  = with_city_visit_logs
      (city_visit_logs sample_store ++ [ {| log_city := 2; log_user := 9 |} ]) sample_store.
Proof.
  destruct (views_frame sample_city_serializer sample_condensed_serializer
              sample_image_serializer sample_fact_serializer sample_clean sample_as_dict
              sample_requests_get sample_response_json accept accept sample_to_python
              (@rev City) JNull (sample_request 9 []))
    as (_ & _ & _ & _ & _ & _ & H & _).
  destruct (H 2 sample_store) as [_ Happend].
  apply Happend.
  - exists parma. split; [simpl; auto | reflexivity].
  - exact sample_store_pk_unique.
  - reflexivity.
Defined.

(** The views run on the small store. *)

Example get_all_cities_two :
  response (get_all_cities sample_condensed_serializer (sample_request 7 []) (Some 2%nat)
              sample_store)
  = Ok {| data := Some (JList [JDict [("id", JInt 3); ("city_name", JStr "Lyon")];
                               JDict [("id", JInt 1); ("city_name", JStr "Paris")]]);
          status := 200 |}.
Proof. reflexivity. Qed.

Example get_city_by_name_PA :
  response (get_city_by_name sample_condensed_serializer (sample_request 7 []) "PA"
              sample_store)
  = Ok {| data := Some (JList [JDict [("id", JInt 1); ("city_name", JStr "Paris")];
                               JDict [("id", JInt 2); ("city_name", JStr "parma")]]);
          status := 200 |}.
Proof. reflexivity. Qed.

Example get_city_lyon_store_rejects_log :
  get_city sample_city_serializer (raising (DoesNotExist CityM)) (sample_request 7 []) 3 sample_store
  = (Ok {| data := Some (JDict [("id", JInt 3); ("city_name", JStr "Lyon");
                                ("nickname", JStr "Lugdunum"); ("has_visited", JBool true)]);
           status := 200 |}, sample_store).
Proof. reflexivity. Qed.

Example get_all_city_images_unknown_city :
  response (get_all_city_images sample_image_serializer (sample_request 7 []) 404 sample_store)
  = Ok {| data := Some (JList []); status := 200 |}.
Proof. reflexivity. Qed.

Example get_visited_city_zero_is_requester :
  response (get_visited_city sample_condensed_serializer (@rev City) (sample_request 8 [])
              (Some 0) sample_store)
  = Ok {| data := Some (JList [JDict [("id", JInt 3); ("city_name", JStr "Lyon")]]);
          status := 200 |}.
Proof. reflexivity. Qed.

Example get_visited_city_no_trips :
  response (get_visited_city sample_condensed_serializer (@rev City) (sample_request 7 [])
              (Some 9) sample_store)
  = Ok {| data := Some (JList []); status := 200 |}.
Proof. reflexivity. Qed.

Example add_city_nickname_not_a_number :
  response (add_city_nickname accept sample_to_python
              (sample_request 7 [("city_id", "abc"); ("nickname", "x")]) sample_store)
  = Ok {| data := Some (JStr "invalid literal for int()"); status := 400 |}.
Proof. reflexivity. Qed.


(** ** How the views compose *)

Section Compositions.

Variable CitySerializer : CityObj → json.
Variable CityCondensedSerializer : CityObj → json.
Variable clean_wiki_extract : json → PyError + json.
Variable extract_as_dict : json → PyError + json.
Variable requests_get : string → PyError + string.
Variable response_json : string → PyError + json.
Variable insert_error : Store → CityVisitLog → option exn.
Variable update_error : Store → City → option PyError.
Variable to_python : string → PyError + Z.
Variable set_iter_order : list City → list City.
Hypothesis set_iter_order_perm : ∀ l, Permutation (set_iter_order l) l.
Variable downstream_error_data : json.

(** The whole outcome of [get_city] on a city that is there. *)
Lemma get_city_run request (c : City) (s : Store) :
  pk_unique s → In c (cities s) →
  get_city CitySerializer insert_error request (city_pk c) s
  = (Ok {| data := Some (CitySerializer
                           (set_has_visited
                              (exists_ (Trip_filter_city_users (city_pk c)
                                          (user_pk (user request)) s))
                              (instance c)));
           status := 200 |},
     match insert_error s {| log_city := city_pk c; log_user := user_pk (user request) |} with
     | Some _ => s
     | None => with_city_visit_logs
                 (city_visit_logs s
                  ++ [ {| log_city := city_pk c; log_user := user_pk (user request) |} ]) s
     end).
Proof.
  intros Hu Hin.
  unfold get_city, try_except, bind, query, ret, CityVisitLog_save. cbn beta.
  rewrite City_objects_get_found by assumption. simpl.
  match goal with |- context [insert_error ?a ?b] => destruct (insert_error a b) end;
    reflexivity.
Qed.

Lemma count_logs_append (s : Store) (l : CityVisitLog) (c : City) :
  count_logs (with_city_visit_logs (city_visit_logs s ++ [l]) s) c
  = (count_logs s c + (if (log_city l =? city_pk c)%Z then 1 else 0))%nat.
Proof.
  unfold count_logs. simpl. rewrite List.filter_app, length_app. simpl.
  destruct (log_city l =? city_pk c); reflexivity.
Qed.

(** X1. A fetch of a city that the store logs adds exactly one to the visit
    count of that city, the count that [get_all_cities] orders by, and
    leaves the count of every other city as it was; a fetch whose log the
    store refuses changes no count. *)
Theorem get_city_counts_one_visit request (c : City) (s : Store) :
  pk_unique s → In c (cities s) →
  let log := {| log_city := city_pk c; log_user := user_pk (user request) |} in
  let s' := final_store (get_city CitySerializer insert_error request (city_pk c) s) in
  (insert_error s log = None →
   count_logs s' c = S (count_logs s c)
   ∧ ∀ c', city_pk c' ≠ city_pk c → count_logs s' c' = count_logs s c')
  ∧ (∀ e, insert_error s log = Some e → ∀ c', count_logs s' c' = count_logs s c').
Proof.
  intros Hu Hin log s'. subst s'. unfold final_store.
  rewrite get_city_run by assumption. fold log. simpl. split.
  - intros Hacc. rewrite Hacc. split.
    + rewrite count_logs_append. simpl. rewrite Z.eqb_refl. lia.
    + intros c' Hne. rewrite count_logs_append. simpl.
      destruct (Z.eqb_spec (city_pk c) (city_pk c')); [congruence | lia].
  - intros e Hrej c'. now rewrite Hrej.
Qed.

(** The response of [get_city] is read off the cities and the trips. *)
Lemma get_city_response_same_but_logs request (k : Z) (s s' : Store) :
  same_but_logs s s' →
  response (get_city CitySerializer insert_error request k s') = response (get_city CitySerializer insert_error request k s).
Proof.
  intros (Hc & _ & _ & Ht & _).
  unfold response, get_city, City_objects_get, try_except, bind, query, ret,
    CityVisitLog_save, City_filter_pk, Trip_filter_city_users.
  cbn beta iota. rewrite Hc.
  destruct (List.filter (λ c, city_pk c =? k) (cities s)) as [|x [|y l]]; simpl;
    try reflexivity.
  rewrite Ht.
  destruct (insert_error s' _), (insert_error s _); reflexivity.
Qed.

Lemma get_city_same_but_logs request (k : Z) (s : Store) :
  same_but_logs s (final_store (get_city CitySerializer insert_error request k s)).
Proof.
  destruct (get_city_final_store CitySerializer insert_error request k s) as [->| ->];
    unfold same_but_logs; simpl; auto.
Qed.

(** X10. Fetching a city again gives the response of the first fetch:
    the visit log that a fetch appends is not read by [get_city]. *)
Theorem get_city_again_same_response request (k : Z) (s : Store) :
  response (get_city CitySerializer insert_error request k (final_store (get_city CitySerializer insert_error request k s)))
  = response (get_city CitySerializer insert_error request k s).
Proof. apply get_city_response_same_but_logs, get_city_same_but_logs. Qed.

(** ** Nicknames *)

(** The whole outcome of an update that the store accepts. *)
Lemma add_city_nickname_run request (c : City) (nick : string) (s : Store) :
  pk_unique s → In c (cities s) →
  asks_nickname to_python request (city_pk c) nick →
  update_error s (set_nickname nick c) = None →
  add_city_nickname update_error to_python request s
  = (Ok {| data := Some (JStr "Successfully added nickname."); status := 201 |},
     with_cities (renamed c nick (cities s)) s).
Proof.
  intros Hu Hin (cid & Ec & Hc & Hconv & En & Hn) Hacc.
  unfold add_city_nickname.
  rewrite (proj2 (truthy_str_Some _ _) (conj Ec Hc)).
  rewrite (proj2 (truthy_str_Some _ _) (conj En Hn)).
  unfold try_except, bind, lift, ret, raise, City_save. cbn beta iota.
  rewrite Hconv. cbn beta iota.
  rewrite (City_objects_get_found c) by assumption. cbn beta iota.
  rewrite Hacc.
  now rewrite (save_row_replaces c (set_nickname nick c)) by (assumption || reflexivity).
Qed.

Lemma renamed_keys (c : City) (nick : string) (l : list City) :
  map city_pk (renamed c nick l) = map city_pk l.
Proof. apply map_replace_keys. reflexivity. Qed.

Lemma In_renamed (c : City) (nick : string) (l : list City) (r : City) :
  In c l →
  (In r (renamed c nick l) ↔ r = set_nickname nick c ∨ (In r l ∧ city_pk r ≠ city_pk c)).
Proof. apply In_map_replace. Qed.

Lemma renamed_twice (c : City) (n1 n2 : string) (l : list City) :
  renamed (set_nickname n1 c) n2 (renamed c n1 l) = renamed c n2 l.
Proof.
  unfold renamed. rewrite map_map. apply map_ext. intros r. simpl.
  destruct (Z.eqb_spec (city_pk r) (city_pk c)) as [E|Hne]; simpl.
  - now rewrite Z.eqb_refl.
  - destruct (Z.eqb_spec (city_pk r) (city_pk c)); [contradiction | reflexivity].
Qed.

(** X2. After an accepted update of a city's nickname, fetching that city
    answers with the same projection as before but for the row, which now
    carries the new nickname; the [has_visited] flag is the same; and the
    fetch of any other city answers exactly as before the update. *)
Theorem nickname_round_trip request request' (c : City) (nick : string) (s : Store) :
  pk_unique s → In c (cities s) →
  asks_nickname to_python request (city_pk c) nick →
  update_error s (set_nickname nick c) = None →
  let s' := final_store (add_city_nickname update_error to_python request s) in
  (∃ b : bool,
     response (get_city CitySerializer insert_error request' (city_pk c) s)
     = Ok {| data := Some (CitySerializer
                             {| row := c; has_visited := Some b; visit_count := None |});
             status := 200 |}
     ∧ response (get_city CitySerializer insert_error request' (city_pk c) s')
       = Ok {| data := Some (CitySerializer
                               {| row := {| city_pk := city_pk c; city_name := city_name c;
                                            nickname := Some nick |};
                                  has_visited := Some b; visit_count := None |});
               status := 200 |})
  ∧ (∀ c2, In c2 (cities s) → city_pk c2 ≠ city_pk c →
       response (get_city CitySerializer insert_error request' (city_pk c2) s')
       = response (get_city CitySerializer insert_error request' (city_pk c2) s)).
Proof.
  intros Hu Hin Hask Hacc s'. subst s'. unfold final_store.
  rewrite (add_city_nickname_run request c nick) by assumption. simpl.
  set (s' := with_cities (renamed c nick (cities s)) s).
  assert (Hu' : pk_unique s').
  { unfold pk_unique. simpl. now rewrite renamed_keys. }
  split.
  - exists (exists_ (Trip_filter_city_users (city_pk c) (user_pk (user request')) s)).
    split.
    + unfold response. now rewrite get_city_run.
    + assert (Hin' : In (set_nickname nick c) (cities s')).
      { simpl. apply In_renamed; auto. }
      unfold response.
      change (city_pk c) with (city_pk (set_nickname nick c)) at 1.
      rewrite (get_city_run request' (set_nickname nick c) s') by assumption.
      reflexivity.
  - intros c2 Hc2 Hne.
    assert (Hin' : In c2 (cities s')).
    { simpl. apply In_renamed; auto. }
    unfold response. rewrite !get_city_run by assumption. reflexivity.
Qed.

(** X3. Of two accepted updates of the same city the later one decides the
    nickname: the city table ends as if only the later had been made, and
    no other row is touched; making the same update twice changes nothing
    the second time. *)
Theorem add_city_nickname_last_wins request1 request2 (c : City) (n1 n2 : string)
        (s : Store) :
  pk_unique s → In c (cities s) →
  asks_nickname to_python request1 (city_pk c) n1 →
  asks_nickname to_python request2 (city_pk c) n2 →
  update_error s (set_nickname n1 c) = None →
  let s1 := final_store (add_city_nickname update_error to_python request1 s) in
  update_error s1 (set_nickname n2 (set_nickname n1 c)) = None →
  let s2 := final_store (add_city_nickname update_error to_python request2 s1) in
  City_objects_get (city_pk c) s2 = (Ok (set_nickname n2 c), s2)
  ∧ (∀ r, In r (cities s2)
          ↔ r = set_nickname n2 c ∨ (In r (cities s) ∧ city_pk r ≠ city_pk c))
  ∧ (n1 = n2 → s2 = s1).
Proof.
  intros Hu Hin Hask1 Hask2 Hacc1 s1. subst s1. unfold final_store.
  rewrite (add_city_nickname_run request1 c n1) by assumption. simpl.
  set (s1 := with_cities (renamed c n1 (cities s)) s).
  intros Hacc2.
  assert (Hu1 : pk_unique s1).
  { unfold pk_unique. simpl. now rewrite renamed_keys. }
  assert (Hin1 : In (set_nickname n1 c) (cities s1)).
  { simpl. apply In_renamed; auto. }
  rewrite (add_city_nickname_run request2 (set_nickname n1 c) n2 s1) by assumption.
  simpl. rewrite renamed_twice.
  change (set_nickname n2 (set_nickname n1 c)) with (set_nickname n2 c).
  split; [|split].
  - change (city_pk c) with (city_pk (set_nickname n2 c)).
    apply City_objects_get_found.
    + unfold pk_unique. simpl. now rewrite renamed_keys.
    + simpl. apply In_renamed; auto.
  - intros r. simpl. now apply In_renamed.
  - intros ->. reflexivity.
Qed.

(** X9. For an id that no city has, the three views that look a city up
    all answer 404, each with a body of its own: [add_city_nickname] with
    a one-element sequence holding the message (the message is built with a
    trailing comma), [get_city_information] with the message as a string,
    [get_city] with no body; none writes. *)
Theorem not_found_bodies request (k : Z) (nick : string) (s : Store) :
  (∀ c, In c (cities s) → city_pk c ≠ k) →
  asks_nickname to_python request k nick →
  add_city_nickname update_error to_python request s
  = (Ok {| data := Some (JList [JStr "City does not exist"]); status := 404 |}, s)
  ∧ get_city_information clean_wiki_extract extract_as_dict requests_get response_json
      downstream_error_data request k s
    = (Ok {| data := Some (JStr "City does not exist"); status := 404 |}, s)
  ∧ get_city CitySerializer insert_error request k s
    = (Ok {| data := None; status := 404 |}, s).
Proof.
  intros Hno (cid & Ec & Hc & Hconv & En & Hn). split; [|split].
  - unfold add_city_nickname.
    rewrite (proj2 (truthy_str_Some _ _) (conj Ec Hc)).
    rewrite (proj2 (truthy_str_Some _ _) (conj En Hn)).
    unfold try_except, bind, lift, ret, raise. cbn beta iota.
    rewrite Hconv. cbn beta iota.
    now rewrite City_objects_get_missing.
  - unfold get_city_information, try_except, bind, ret. cbn beta.
    now rewrite City_objects_get_missing.
  - unfold get_city, try_except, bind, query, ret. cbn beta.
    now rewrite City_objects_get_missing.
Qed.

(** ** Keys *)

Lemma key_present (k : Z) (l : list City) :
  (∃ c, In c l ∧ city_pk c = k) ↔ In k (map city_pk l).
Proof.
  rewrite in_map_iff. split; intros (c & H1 & H2); exists c; auto.
Qed.

Lemma same_but_nicknames_keys (s s' : Store) :
  same_but_nicknames s s' → map city_pk (cities s') = map city_pk (cities s).
Proof.
  intros [H _]. induction H as [|c c' l l' [Hpk _] _ IH]; simpl; [reflexivity|].
  now rewrite Hpk, IH.
Qed.

Lemma get_city_appends_for_a_city request (k : Z) (s : Store) :
  final_store (get_city CitySerializer insert_error request k s) = s
  ∨ ((∃ c, In c (cities s) ∧ city_pk c = k)
     ∧ final_store (get_city CitySerializer insert_error request k s)
       = with_city_visit_logs
           (city_visit_logs s ++ [ {| log_city := k; log_user := user_pk (user request) |} ])
           s).
Proof.
  unfold final_store, get_city, try_except, bind, query, ret, CityVisitLog_save.
  cbn beta.
  destruct (City_objects_get k s) as [[c|e] s1] eqn:E.
  - apply City_objects_get_Ok in E as [-> E].
    apply filter_singleton_unique in E as (Hin & <- & _).
    simpl.
    match goal with |- context [insert_error ?a ?b] => destruct (insert_error a b) end;
      simpl; [now left | right]. split; [now exists c | reflexivity].
  - apply City_objects_get_inv in E as (-> & _).
    destruct e as [[]| |]; simpl; now left.
Qed.

(** X4. The two views that write keep the store's key constraints: after
    [get_city] and after [add_city_nickname], whatever they answer, city
    keys are still unique, every trip still points at a city, and every
    visit log, the new one included, points at a city. *)
Theorem writing_views_keep_keys request (s : Store) :
  pk_unique s → trip_city_fk s → log_city_fk s →
  (∀ k, let s' := final_store (get_city CitySerializer insert_error request k s) in
        pk_unique s' ∧ trip_city_fk s' ∧ log_city_fk s')
  ∧ (let s' := final_store (add_city_nickname update_error to_python request s) in
     pk_unique s' ∧ trip_city_fk s' ∧ log_city_fk s').
Proof.
  intros Hu Ht Hl. split.
  - intros k s'. subst s'.
    destruct (get_city_appends_for_a_city request k s) as [->|[Hc ->]]; [auto|].
    split; [exact Hu|]. split; [exact Ht|].
    intros l Hin. simpl in Hin. apply in_app_iff in Hin as [Hin|[<-|[]]].
    + now apply Hl.
    + exact Hc.
  - intros s'. subst s'.
    pose proof (add_city_nickname_final_store update_error to_python request s) as Hsame.
    pose proof (same_but_nicknames_keys _ _ Hsame) as Hkeys.
    destruct Hsame as (_ & _ & _ & Hlogs & Htrips & _).
    split; [|split].
    + unfold pk_unique. now rewrite Hkeys.
    + intros t Hin. apply key_present. rewrite Hkeys. apply key_present.
      apply Ht. now rewrite <- Htrips.
    + intros l Hin. apply key_present. rewrite Hkeys. apply key_present.
      apply Hl. now rewrite <- Hlogs.
Qed.

(** ** The most visited *)

Lemma insert_desc_perm (x : City * nat) (l : list (City * nat)) :
  Permutation (insert_desc x l) (x :: l).
Proof.
  induction l as [|y l IH]; simpl; [reflexivity|].
  destruct (x.2 <? y.2)%nat; [|reflexivity].
  rewrite IH. apply perm_swap.
Qed.

Lemma order_by_perm (l : list (City * nat)) :
  Permutation (order_by_visit_count_desc l) l.
Proof.
  induction l as [|x l IH]; simpl; [reflexivity|].
  rewrite insert_desc_perm. now constructor.
Qed.

Lemma sorted_firstn_skipn {A : Type} (R : A → A → Prop) (n : nat) (l : list A) :
  StronglySorted R l → ∀ p q, In p (firstn n l) → In q (skipn n l) → R p q.
Proof.
  intros Hs. revert n.
  induction Hs as [|x l Hs IH Hx]; intros [|n] p q Hp Hq; simpl in *; try contradiction.
  destruct Hp as [<-|Hp].
  - rewrite List.Forall_forall in Hx. apply Hx.
    rewrite <- (firstn_skipn n l). apply in_app_iff. now right.
  - now apply (IH n).
Qed.

(** X5. What [get_all_cities] returns are the most visited cities: the
    cities returned and the cities left out are together the cities of the
    store, each once, each with its own visit count, and no city left out
    has more visits than a city returned. *)
Theorem get_all_cities_most_visited request (no_of_cities : option nat) (s : Store) :
  ∃ l rest : list (City * nat),
    get_all_cities CityCondensedSerializer request no_of_cities s
    = (Ok {| data := Some (JList (map CityCondensedSerializer (map annotated l)));
             status := 200 |}, s)
    ∧ Permutation (map fst (l ++ rest)) (cities s)
    ∧ (∀ c n, In (c, n) (l ++ rest) → n = count_logs s c)
    ∧ (∀ p q, In p l → In q rest → (q.2 ≤ p.2)%nat).
Proof.
  set (n := default 8%nat no_of_cities).
  set (sorted := order_by_visit_count_desc (annotate_visit_count s)).
  exists (firstn n sorted), (skipn n sorted).
  split; [reflexivity|]. rewrite firstn_skipn.
  split; [|split].
  - unfold sorted. rewrite order_by_perm. unfold annotate_visit_count.
    rewrite map_map. simpl. now rewrite map_id.
  - intros c k Hin. apply (proj1 (In_order_by _ _)) in Hin.
    unfold annotate_visit_count in Hin. apply in_map_iff in Hin as (c' & E & _).
    now injection E as -> <-.
  - apply (sorted_firstn_skipn by_count_desc). apply order_by_sorted.
Qed.

(** ** Searching by prefix *)

Lemma filter_sublist {A : Type} (f : A → bool) (l : list A) :
  sublist (List.filter f l) l.
Proof.
  induction l as [|x l IH]; simpl; [constructor|].
  destruct (f x); now constructor.
Qed.

(** X6. The cities [get_city_by_name] returns are in the order of the
    store, and when it returns fewer than five it has left no match out:
    every city whose name starts with the prefix, case ignored, is there. *)
Theorem get_city_by_name_complete request (city_prefix : string) (s : Store) :
  ∃ cs : list City,
    get_city_by_name CityCondensedSerializer request city_prefix s
    = (Ok {| data := Some (JList (map CityCondensedSerializer (map instance cs)));
             status := 200 |}, s)
    ∧ sublist cs (cities s)
    ∧ ((length cs < 5)%nat →
       ∀ c, In c (cities s) → starts_with_ci city_prefix (city_name c) → In c cs).
Proof.
  eexists. split; [reflexivity|]. split.
  - etransitivity; [apply sublist_take | apply filter_sublist].
  - intros Hlen c Hin Hstarts.
    rewrite firstn_all2.
    + apply filter_In. split; [exact Hin | now apply istartswith_spec].
    + rewrite length_firstn in Hlen. lia.
Qed.

Lemma istartswith_folded (p p' name : string) :
  map lower (list_ascii_of_string p) = map lower (list_ascii_of_string p') →
  istartswith p name = istartswith p' name.
Proof.
  intros E.
  destruct (istartswith p name) eqn:H1, (istartswith p' name) eqn:H2; try reflexivity.
  - apply istartswith_spec in H1. unfold starts_with_ci in H1. rewrite E in H1.
    apply istartswith_spec in H1. congruence.
  - apply istartswith_spec in H2. unfold starts_with_ci in H2. rewrite <- E in H2.
    apply istartswith_spec in H2. congruence.
Qed.

(** X7. The case of the prefix does not matter either: two prefixes that
    differ only in the case of their letters get the same answer. *)
Theorem get_city_by_name_ignores_prefix_case request (p p' : string) (s : Store) :
  map lower (list_ascii_of_string p) = map lower (list_ascii_of_string p') →
  get_city_by_name CityCondensedSerializer request p s
  = get_city_by_name CityCondensedSerializer request p' s.
Proof.
  intros E. unfold get_city_by_name, bind, query, ret.
  rewrite (filter_ext (λ c, istartswith p (city_name c))
                      (λ c, istartswith p' (city_name c))); [reflexivity|].
  intros c. now apply istartswith_folded.
Qed.

(** ** Trips *)

(** The whole outcome of [get_visited_city] for a requester who is a user. *)
Lemma get_visited_city_own request (s : Store) :
  pk_unique s → trip_city_fk s →
  (∃ u, In u (users s) ∧ user_pk u = user_pk (user request)) →
  ∃ cs : list City,
    get_visited_city CityCondensedSerializer set_iter_order request None s
    = (Ok {| data := Some (JList (map CityCondensedSerializer (map instance cs)));
             status := 200 |}, s)
    ∧ ∀ c, In c cs ↔ In c (cities s)
                     ∧ ∃ t, In t (trips s) ∧ In (user_pk (user request)) (trip_users t)
                            ∧ trip_city t = city_pk c.
Proof using set_iter_order_perm.
  intros Hu Hfk Hex. apply user_exists_spec in Hex.
  destruct (visited_loop s (Trip_filter_users (user_pk (user request)) s) Hu)
    with (acc := @nil City) as (cs & Hrun & _ & Hcs).
  { intros t Ht. apply In_Trip_filter_users in Ht as [Ht _]. now apply Hfk. }
  { constructor. }
  { intros x []. }
  exists (set_iter_order cs). split.
  - unfold get_visited_city. simpl.
    erewrite run_bind_Ok by reflexivity. rewrite Hex. simpl.
    erewrite run_bind_Ok by reflexivity.
    erewrite run_bind_Ok by exact Hrun. reflexivity.
  - intros c. rewrite (Permutation_in' (eq_refl c) (set_iter_order_perm cs)).
    rewrite Hcs. split.
    + intros [[]|(Hc & t & Ht & E)]. split; [exact Hc|].
      apply In_Trip_filter_users in Ht as [Ht Hut]. now exists t.
    + intros (Hc & t & Ht & Hut & E). right. split; [exact Hc|].
      exists t. split; [now apply In_Trip_filter_users | exact E].
Qed.

(** C9. A [user_id] that is absent or zero is replaced by the requester's
    own id before the existence check: the view then runs as it does for
    the requester's id given explicitly, so zero and an absent parameter
    cannot be told apart; it answers 404 exactly on the ground that the
    requester is no user, and when the requester is a user it answers 200
    with the cities of the requester's trips. *)
Theorem get_visited_city_falsy_user_id request (user_id : option Z) (s : Store) :
  user_id = None ∨ user_id = Some 0 →
  get_visited_city CityCondensedSerializer set_iter_order request user_id s
  = get_visited_city CityCondensedSerializer set_iter_order request
      (Some (user_pk (user request))) s
  ∧ get_visited_city CityCondensedSerializer set_iter_order request (Some 0) s
    = get_visited_city CityCondensedSerializer set_iter_order request None s
  ∧ ((∀ u, In u (users s) → user_pk u ≠ user_pk (user request)) →
     get_visited_city CityCondensedSerializer set_iter_order request user_id s
     = (Ok {| data := Some (JStr "User does not exists."); status := 404 |}, s))
  ∧ ((∃ u, In u (users s) ∧ user_pk u = user_pk (user request)) →
     pk_unique s → trip_city_fk s →
     ∃ cs : list City,
       get_visited_city CityCondensedSerializer set_iter_order request user_id s
       = (Ok {| data := Some (JList (map CityCondensedSerializer (map instance cs)));
                status := 200 |}, s)
       ∧ ∀ c, In c cs ↔ In c (cities s)
                        ∧ ∃ t, In t (trips s)
                               ∧ In (user_pk (user request)) (trip_users t)
                               ∧ trip_city t = city_pk c).
Proof using set_iter_order_perm.
  intros Hfalsy.
  assert (E : get_visited_city CityCondensedSerializer set_iter_order request user_id s
              = get_visited_city CityCondensedSerializer set_iter_order request None s)
    by (destruct Hfalsy as [->| ->]; reflexivity).
  rewrite E. split; [|split; [reflexivity|split]].
  - unfold get_visited_city. simpl.
    destruct (Z.eqb_spec (user_pk (user request)) 0); reflexivity.
  - intros Hno. unfold get_visited_city. simpl. unfold bind, query.
    destruct (exists_ (User_filter_id (user_pk (user request)) s)) eqn:Ex; [|reflexivity].
    apply user_exists_spec in Ex as (u & Hu & Hpk). now destruct (Hno u Hu).
  - intros Hex Hu Hfk. now apply get_visited_city_own.
Qed.

(** X8. The two views that read the trips agree: for a requester who is a
    user, the [has_visited] flag that [get_city] puts on a city is true
    exactly when that city is among the cities [get_visited_city] lists
    for the requester. *)
Theorem has_visited_agrees_with_visited_cities request (c : City) (s : Store) :
  pk_unique s → trip_city_fk s → In c (cities s) →
  (∃ u, In u (users s) ∧ user_pk u = user_pk (user request)) →
  ∃ (b : bool) (cs : list City),
    response (get_city CitySerializer insert_error request (city_pk c) s)
    = Ok {| data := Some (CitySerializer
                            {| row := c; has_visited := Some b; visit_count := None |});
            status := 200 |}
    ∧ response (get_visited_city CityCondensedSerializer set_iter_order request None s)
      = Ok {| data := Some (JList (map CityCondensedSerializer (map instance cs)));
              status := 200 |}
    ∧ (b = true ↔ In c cs).
Proof using set_iter_order_perm.
  intros Hu Hfk Hin Hex.
  destruct (get_visited_city_own request s Hu Hfk Hex) as (cs & Hrun & Hcs).
  exists (exists_ (Trip_filter_city_users (city_pk c) (user_pk (user request)) s)), cs.
  split; [|split].
  - unfold response. now rewrite get_city_run.
  - unfold response. now rewrite Hrun.
  - rewrite has_trip_spec, Hcs. split.
    + intros (t & Ht & E & Hut). split; [exact Hin|]. now exists t.
    + intros (_ & t & Ht & Hut & E). now exists t.
Qed.

(** ** Listings after a change of nickname *)

Lemma insert_desc_shown (x x' : City * nat) (l l' : list (City * nat)) :
  shown x' = shown x → Forall2 (λ p p', shown p' = shown p) l l' →
  Forall2 (λ p p', shown p' = shown p) (insert_desc x l) (insert_desc x' l').
Proof.
  intros Hx H. induction H as [|y y' l l' Hy Hl IH]; simpl.
  - repeat constructor. exact Hx.
  - assert (x'.2 = x.2) as -> by (unfold shown in Hx; congruence).
    assert (y'.2 = y.2) as -> by (unfold shown in Hy; congruence).
    destruct (x.2 <? y.2)%nat.
    + constructor; [exact Hy | exact IH].
    + constructor; [exact Hx|]. constructor; [exact Hy | exact Hl].
Qed.

Lemma order_by_shown (l l' : list (City * nat)) :
  Forall2 (λ p p', shown p' = shown p) l l' →
  Forall2 (λ p p', shown p' = shown p)
          (order_by_visit_count_desc l) (order_by_visit_count_desc l').
Proof.
  induction 1 as [|x x' l l' Hx _ IH]; simpl; [constructor|].
  now apply insert_desc_shown.
Qed.

Lemma Forall2_map_eq {A B : Type} (f : A → B) (l l' : list A) :
  Forall2 (λ a a', f a' = f a) l l' → map f l' = map f l.
Proof.
  induction 1 as [|x x' l l' Hx _ IH]; simpl; [reflexivity|]. now rewrite Hx, IH.
Qed.

Lemma filter_same_names (f : string → bool) (l l' : list City) :
  Forall2 (λ c c', city_pk c' = city_pk c ∧ city_name c' = city_name c) l l' →
  Forall2 (λ c c', city_pk c' = city_pk c ∧ city_name c' = city_name c)
          (List.filter (λ c, f (city_name c)) l) (List.filter (λ c, f (city_name c)) l').
Proof.
  induction 1 as [|x x' l l' [Hpk Hname] _ IH]; simpl; [constructor|].
  rewrite Hname. destruct (f (city_name x)); [constructor; auto | exact IH].
Qed.

(** X11. An update of a nickname, whatever it answers, changes no listing
    otherwise: [get_all_cities] returns, before and after, cities of the
    same keys, names and visit counts in the same order, and
    [get_city_by_name] cities of the same keys and names in the same order. *)
Theorem nickname_keeps_listings request request' (no_of_cities : option nat)
        (city_prefix : string) (s : Store) :
  let s' := final_store (add_city_nickname update_error to_python request s) in
  (∃ l l' : list (City * nat),
     response (get_all_cities CityCondensedSerializer request' no_of_cities s)
     = Ok {| data := Some (JList (map CityCondensedSerializer (map annotated l)));
             status := 200 |}
     ∧ response (get_all_cities CityCondensedSerializer request' no_of_cities s')
       = Ok {| data := Some (JList (map CityCondensedSerializer (map annotated l')));
               status := 200 |}
     ∧ map shown l' = map shown l)
  ∧ (∃ cs cs' : list City,
       response (get_city_by_name CityCondensedSerializer request' city_prefix s)
       = Ok {| data := Some (JList (map CityCondensedSerializer (map instance cs)));
               status := 200 |}
       ∧ response (get_city_by_name CityCondensedSerializer request' city_prefix s')
         = Ok {| data := Some (JList (map CityCondensedSerializer (map instance cs')));
                 status := 200 |}
       ∧ map (λ c, (city_pk c, city_name c)) cs' = map (λ c, (city_pk c, city_name c)) cs).
Proof.
  intros s'.
  pose proof (add_city_nickname_final_store update_error to_python request s) as Hsame.
  fold s' in Hsame. destruct Hsame as (Hcities & _ & _ & Hlogs & _).
  split.
  - do 2 eexists. split; [reflexivity|]. split; [reflexivity|].
    apply Forall2_map_eq, Forall2_take, order_by_shown.
    unfold annotate_visit_count, count_logs. rewrite Hlogs.
    induction Hcities as [|c c' l l' [Hpk Hname] _ IH]; simpl; constructor; [|exact IH].
    unfold shown. simpl. now rewrite Hpk, Hname.
  - do 2 eexists. split; [reflexivity|]. split; [reflexivity|].
    apply (Forall2_map_eq (λ c, (city_pk c, city_name c))).
    apply Forall2_take.
    eapply Forall2_impl; [apply (filter_same_names (istartswith city_prefix)), Hcities|].
    simpl. intros c c' [-> ->]. reflexivity.
Qed.

(** ** Enrichment goes by name *)

(** X12. What [get_city_information] answers for a city depends on the
    city's name alone: two cities of the same name get the same answer,
    whoever asks. *)
Theorem get_city_information_by_name request request' (c c' : City) (s : Store) :
  pk_unique s → In c (cities s) → In c' (cities s) → city_name c = city_name c' →
  get_city_information clean_wiki_extract extract_as_dict requests_get response_json
    downstream_error_data request (city_pk c) s
  = get_city_information clean_wiki_extract extract_as_dict requests_get response_json
      downstream_error_data request' (city_pk c') s.
Proof.
  intros Hu Hc Hc' Hname.
  unfold get_city_information, try_except, bind, lift, ret, raise. cbn beta.
  rewrite !City_objects_get_found by assumption. cbn beta iota.
  now rewrite Hname.
Qed.

(** ** A fetch is not a trip *)

Lemma visited_loop_same_cities (s s' : Store) (ts : list Trip) (acc : list City) :
  cities s' = cities s →
  (for_each ts (λ cities trip, let* city := Trip_city trip in ret (set_add city cities))
     acc s').1
  = (for_each ts (λ cities trip, let* city := Trip_city trip in ret (set_add city cities))
       acc s).1.
Proof.
  intros Hc. revert acc. induction ts as [|t ts IH]; intros acc; [reflexivity|].
  simpl. unfold bind at 1 3. unfold bind at 1 2.
  unfold Trip_city, City_objects_get, bind, query, City_filter_pk, ret. cbn beta iota.
  rewrite Hc.
  destruct (List.filter (λ c, city_pk c =? trip_city t) (cities s)) as [|x [|y l]];
    simpl; try reflexivity.
  apply IH.
Qed.

(** X13. Looking at a city does not make it visited: after a fetch,
    logged or not, [get_visited_city] answers for every user exactly as
    before, and so do the prefix search and the image and fact listings. *)
Theorem get_city_is_not_a_trip request request' (k : Z) (s : Store)
        (CityImageSerializer : CityImage → json) (CityFactSerializer : CityFact → json) :
  let s' := final_store (get_city CitySerializer insert_error request k s) in
  (∀ user_id,
     response (get_visited_city CityCondensedSerializer set_iter_order request' user_id s')
     = response (get_visited_city CityCondensedSerializer set_iter_order request' user_id s))
  ∧ (∀ city_prefix,
       response (get_city_by_name CityCondensedSerializer request' city_prefix s')
       = response (get_city_by_name CityCondensedSerializer request' city_prefix s))
  ∧ (∀ city_id,
       response (get_all_city_images CityImageSerializer request' city_id s')
       = response (get_all_city_images CityImageSerializer request' city_id s))
  ∧ (∀ city_id,
       response (get_all_city_facts CityFactSerializer request' city_id s')
       = response (get_all_city_facts CityFactSerializer request' city_id s)).
Proof.
  intros s'.
  pose proof (get_city_same_but_logs request k s) as Hsame. fold s' in Hsame.
  destruct Hsame as (Hc & Hi & Hf & Ht & Hu).
  split; [|split; [|split]].
  - intros user_id. unfold response, get_visited_city.
    set (target := match truthy_int user_id with
                   | Some u => u
                   | None => user_pk (user request')
                   end).
    do 2 erewrite run_bind_Ok by reflexivity.
    unfold User_filter_id. rewrite Hu.
    destruct (exists_ _); cbn [negb]; [|reflexivity].
    rewrite (run_bind_Ok (query (Trip_filter_users target)) _ s' s' _ eq_refl).
    rewrite (run_bind_Ok (query (Trip_filter_users target)) _ s s _ eq_refl).
    unfold Trip_filter_users. rewrite Ht.
    pose proof (visited_loop_same_cities s s'
                  (List.filter (λ t, existsb (Z.eqb target) (trip_users t)) (trips s))
                  [] Hc) as Hloop.
    unfold bind at 1 3.
    destruct (for_each _ _ _ s') as [r1 s1], (for_each _ _ _ s) as [r2 s2].
    simpl in Hloop. subst r2. destruct r1; reflexivity.
  - intros city_prefix. unfold response, get_city_by_name, bind, query, ret. simpl.
    now rewrite Hc.
  - intros city_id.
    unfold response, get_all_city_images, CityImage_objects_filter, try_except, bind,
      ret, evaluate. cbn. rewrite Hi. destruct (in_int64 city_id); reflexivity.
  - intros city_id.
    unfold response, get_all_city_facts, CityFact_objects_filter, try_except, bind,
      ret, evaluate. cbn. rewrite Hf. destruct (in_int64 city_id); reflexivity.
Qed.

End Compositions.

(** ** The compositions on the small store *)

Lemma sample_store_log_city_fk : log_city_fk sample_store.
Proof.
  intros l Hl. simpl in Hl.
  destruct Hl as [<-|[<-|[<-|[]]]]; simpl.
  - exists lyon. split; [right; right; now left | reflexivity].
  - exists paris. split; [now left | reflexivity].
  - exists lyon. split; [right; right; now left | reflexivity].
Qed.

Lemma sample_asks (u k : Z) (cid nick : string) :
  cid ≠ "" → nick ≠ "" → sample_to_python cid = inr k →
  asks_nickname sample_to_python (sample_request u [("city_id", cid); ("nickname", nick)])
                k nick.
Proof.
  intros Hc Hn Hconv. exists cid. repeat split; auto.
Qed.

Lemma namesake_store_pk_unique : pk_unique namesake_store.
Proof.
  unfold pk_unique. simpl.
  repeat (constructor; [simpl; intros H; repeat (destruct H as [H|H]; [discriminate|]);
                        exact H|]).
  constructor.
Qed.

Lemma get_city_counts_one_visit_witness :
  count_logs (final_store (get_city sample_city_serializer accept (sample_request 9 [])
                             2 sample_store)) parma
  = S (count_logs sample_store parma)
  ∧ ∀ c', city_pk c' ≠ 2 →
          count_logs (final_store (get_city sample_city_serializer accept
                                     (sample_request 9 []) 2 sample_store)) c'
          = count_logs sample_store c'.
Proof.
  exact (proj1 (get_city_counts_one_visit sample_city_serializer accept (sample_request 9 [])
                  parma sample_store sample_store_pk_unique
                  (or_intror (or_introl eq_refl)))
               eq_refl).
Defined.

Lemma nickname_round_trip_witness :
  ∃ b : bool,
    response (get_city sample_city_serializer accept (sample_request 8 []) 3 sample_store)
    = Ok {| data := Some (sample_city_serializer
                            {| row := lyon; has_visited := Some b; visit_count := None |});
            status := 200 |}
    ∧ response (get_city sample_city_serializer accept (sample_request 8 []) 3
                  (final_store (add_city_nickname accept sample_to_python
                                  (sample_request 7 [("city_id", "3");
                                                     ("nickname", "Capital of Gaul")])
                                  sample_store)))
      = Ok {| data := Some (sample_city_serializer
                              {| row := {| city_pk := 3; city_name := "Lyon";
                                           nickname := Some "Capital of Gaul" |};
                                 has_visited := Some b; visit_count := None |});
              status := 200 |}.
Proof.
  refine (proj1 (nickname_round_trip sample_city_serializer accept accept sample_to_python
                   (sample_request 7 [("city_id", "3"); ("nickname", "Capital of Gaul")])
                   (sample_request 8 []) lyon "Capital of Gaul" sample_store
                   sample_store_pk_unique _ _ eq_refl)).
  - simpl. auto.
  - apply sample_asks; [discriminate | discriminate | reflexivity].
Defined.

Lemma add_city_nickname_last_wins_witness :
  City_objects_get 3
    (final_store
       (add_city_nickname accept sample_to_python
          (sample_request 8 [("city_id", "3"); ("nickname", "Lugdunum")])
          (final_store
             (add_city_nickname accept sample_to_python
                (sample_request 7 [("city_id", "3"); ("nickname", "Capital of Gaul")])
                sample_store))))
  = (Ok (set_nickname "Lugdunum" lyon),
     final_store
       (add_city_nickname accept sample_to_python
          (sample_request 8 [("city_id", "3"); ("nickname", "Lugdunum")])
          (final_store
             (add_city_nickname accept sample_to_python
                (sample_request 7 [("city_id", "3"); ("nickname", "Capital of Gaul")])
                sample_store)))).
Proof.
  refine (proj1 (add_city_nickname_last_wins accept sample_to_python
                   (sample_request 7 [("city_id", "3"); ("nickname", "Capital of Gaul")])
                   (sample_request 8 [("city_id", "3"); ("nickname", "Lugdunum")])
                   lyon "Capital of Gaul" "Lugdunum" sample_store
                   sample_store_pk_unique _ _ _ eq_refl eq_refl)).
  - simpl. auto.
  - apply sample_asks; [discriminate | discriminate | reflexivity].
  - apply sample_asks; [discriminate | discriminate | reflexivity].
Defined.

Lemma writing_views_keep_keys_witness :
  pk_unique (final_store (get_city sample_city_serializer accept (sample_request 9 []) 2
                            sample_store))
  ∧ trip_city_fk (final_store (get_city sample_city_serializer accept (sample_request 9 []) 2
                                 sample_store))
  ∧ log_city_fk (final_store (get_city sample_city_serializer accept (sample_request 9 []) 2
                                sample_store)).
Proof.
  exact (proj1 (writing_views_keep_keys sample_city_serializer accept accept sample_to_python
                  (sample_request 9 []) sample_store sample_store_pk_unique
                  sample_store_trip_city_fk sample_store_log_city_fk) 2).
Defined.

Lemma get_city_by_name_ignores_prefix_case_witness :
  get_city_by_name sample_condensed_serializer (sample_request 7 []) "PA" sample_store
  = get_city_by_name sample_condensed_serializer (sample_request 7 []) "pa" sample_store.
Proof.
  exact (get_city_by_name_ignores_prefix_case sample_condensed_serializer
           (sample_request 7 []) "PA" "pa" sample_store eq_refl).
Defined.

Lemma has_visited_agrees_with_visited_cities_witness :
  ∃ (b : bool) (cs : list City),
    response (get_city sample_city_serializer accept (sample_request 8 []) 1 sample_store)
    = Ok {| data := Some (sample_city_serializer
                            {| row := paris; has_visited := Some b; visit_count := None |});
            status := 200 |}
    ∧ response (get_visited_city sample_condensed_serializer (@rev City)
                  (sample_request 8 []) None sample_store)
      = Ok {| data := Some (JList (map sample_condensed_serializer (map instance cs)));
              status := 200 |}
    ∧ (b = true ↔ In paris cs).
Proof.
  refine (has_visited_agrees_with_visited_cities sample_city_serializer
            sample_condensed_serializer accept (@rev City) rev_perm (sample_request 8 [])
            paris sample_store sample_store_pk_unique sample_store_trip_city_fk _ _).
  - simpl. auto.
  - exists {| user_pk := 8 |}. split; [simpl; auto | reflexivity].
Defined.

Lemma not_found_bodies_witness :
  add_city_nickname accept sample_to_python
    (sample_request 7 [("city_id", "99"); ("nickname", "Nowhere")]) sample_store
  = (Ok {| data := Some (JList [JStr "City does not exist"]); status := 404 |}, sample_store)
  ∧ get_city_information sample_clean sample_as_dict sample_requests_get sample_response_json
      JNull (sample_request 7 [("city_id", "99"); ("nickname", "Nowhere")]) 99 sample_store
    = (Ok {| data := Some (JStr "City does not exist"); status := 404 |}, sample_store)
  ∧ get_city sample_city_serializer accept
      (sample_request 7 [("city_id", "99"); ("nickname", "Nowhere")]) 99 sample_store
    = (Ok {| data := None; status := 404 |}, sample_store).
Proof.
  refine (not_found_bodies sample_city_serializer sample_clean sample_as_dict
            sample_requests_get sample_response_json accept accept sample_to_python JNull
            (sample_request 7 [("city_id", "99"); ("nickname", "Nowhere")]) 99 "Nowhere"
            sample_store _ _).
  - apply sample_store_no_city; discriminate.
  - apply sample_asks; [discriminate | discriminate | reflexivity].
Defined.

Lemma get_city_information_by_name_witness :
  get_city_information sample_clean sample_as_dict sample_requests_get sample_response_json
    JNull (sample_request 7 []) 1 namesake_store
  = get_city_information sample_clean sample_as_dict sample_requests_get sample_response_json
      JNull (sample_request 8 []) 4 namesake_store.
Proof.
  refine (get_city_information_by_name sample_clean sample_as_dict sample_requests_get
            sample_response_json JNull (sample_request 7 []) (sample_request 8 [])
            paris paris_texas namesake_store namesake_store_pk_unique _ _ eq_refl).
  - simpl. auto.
  - simpl. auto.
Defined.

Lemma get_visited_city_falsy_user_id_witness :
  (∃ cs : list City,
     get_visited_city sample_condensed_serializer (@rev City) (sample_request 8 []) (Some 0)
       sample_store
     = (Ok {| data := Some (JList (map sample_condensed_serializer (map instance cs)));
              status := 200 |}, sample_store)
     ∧ ∀ c, In c cs ↔ In c (cities sample_store)
                      ∧ ∃ t, In t (trips sample_store) ∧ In 8 (trip_users t)
                             ∧ trip_city t = city_pk c)
  ∧ get_visited_city sample_condensed_serializer (@rev City) (sample_request 42 []) (Some 0)
      sample_store
    = (Ok {| data := Some (JStr "User does not exists."); status := 404 |}, sample_store).
Proof.
  split.
  - destruct (get_visited_city_falsy_user_id sample_condensed_serializer (@rev City) rev_perm
                (sample_request 8 []) (Some 0) sample_store (or_intror eq_refl))
      as (_ & _ & _ & H).
    apply H.
    + exists {| user_pk := 8 |}. split; [simpl; auto | reflexivity].
    + exact sample_store_pk_unique.
    + exact sample_store_trip_city_fk.
  - destruct (get_visited_city_falsy_user_id sample_condensed_serializer (@rev City) rev_perm
                (sample_request 42 []) (Some 0) sample_store (or_intror eq_refl))
      as (_ & _ & H & _).
    apply H. apply sample_store_no_user; discriminate.
Defined.


